(** * toggo: the evaluation core of a feature-flag library

    A shallow embedding of the Go package [toggo] (conditions, rollout
    strategies, the flag store) and of its [internal/hash] package, with
    the properties of the evaluation core proved over it.

    Conventions of the embedding.
    - Go's [int] and [int64] are 64-bit two's-complement integers: a value
      is a [Z], and every arithmetic result is reduced by [wrap64].
    - A Go [string] is a byte sequence: Rocq's [string] (a list of 8-bit
      [ascii]) has the same shape, and comparisons are bytewise.
    - A Go pair [(T, error)] is a pair [T * option Error], [None] being the
      [nil] error.  A run-time panic is the [Panic] outcome.
    - [map[string]T] is stdpp's [gmap string T]; a nil map, which Go reads
      as an empty one and does not let be written, has no value of its own.
    - A [*Flag] held by the store is never written through by the package
      (all [Flag] methods only read), so the store maps names to flag
      values; the [nil] pointer is [None]. *)

From Stdlib Require Import ZArith Ascii String List Lia.
From stdpp Require Import base option list gmap strings pretty.

Set Warnings "-register-all".

Open Scope string_scope.
Open Scope Z_scope.

(** ** Machine integers *)

Definition wrap64 (z : Z) : Z := (z + 2 ^ 63) mod 2 ^ 64 - 2 ^ 63.

Definition minInt64 : Z := - 2 ^ 63.
Definition maxInt64 : Z := 2 ^ 63 - 1.

Definition int_add (a b : Z) : Z := wrap64 (a + b).
Definition int_sub (a b : Z) : Z := wrap64 (a - b).
Definition int_mul (a b : Z) : Z := wrap64 (a * b).

(** ** Outcomes of a call: a value, or a run-time panic *)

Inductive PanicKind : Type :=
| NilDereference
| DivideByZero
| IndexOutOfRange (index : Z) (len : nat).

Inductive outcome (A : Type) : Type :=
| Ok (a : A)
| Panic (p : PanicKind).

Arguments Ok {A} a.
Arguments Panic {A} p.

Definition obind {A B : Type} (m : outcome A) (k : A -> outcome B) : outcome B :=
  match m with
  | Ok a => k a
  | Panic p => Panic p
  end.

(** Go's integer division and remainder truncate toward zero; the divisor
    zero panics. *)
Definition int_quo (a b : Z) : outcome Z :=
  if b =? 0 then Panic DivideByZero else Ok (wrap64 (Z.quot a b)).

Definition int_rem (a b : Z) : outcome Z :=
  if b =? 0 then Panic DivideByZero else Ok (Z.rem a b).

(** [s[i]] on a slice: the bounds check of the Go runtime. *)
Definition index_slice {A : Type} (l : list A) (i : Z) : outcome A :=
  if (0 <=? i) && (i <? Z.of_nat (length l)) then
    match l !! Z.to_nat i with
    | Some x => Ok x
    | None => Panic (IndexOutOfRange i (length l))
    end
  else Panic (IndexOutOfRange i (length l)).

(** ** Package [internal/hash] *)

Module hash.

(** [type Hasher interface { Hash(s string) int }] *)
Record Hasher : Type := { Hash : string -> Z }.

Definition offset32 : Z := 2166136261.
Definition prime32 : Z := 16777619.

(** One step of [hash/fnv]'s 32-bit FNV-1a [Write]: xor the byte in, then
    multiply by the prime, in [uint32]. *)
Definition fnv32a_step (h : Z) (c : ascii) : Z :=
  (Z.lxor h (Z.of_N (N_of_ascii c)) * prime32) mod 2 ^ 32.

Fixpoint fnv32a_write (h : Z) (s : string) : Z :=
  match s with
  | EmptyString => h
  | String c s' => fnv32a_write (fnv32a_step h c) s'
  end.

(** [fnv.New32a()], [Write([]byte(s))], [Sum32()]. *)
Definition Sum32 (s : string) : Z := fnv32a_write offset32 s.

(** [FNVHasher.Hash]: [int(hasher.Sum32() % 100)]. *)
Definition FNVHasher_Hash (s : string) : Z := Sum32 s mod 100.

Definition NewFNV : Hasher := {| Hash := FNVHasher_Hash |}.

End hash.

(** ** The Go library functions the package calls

    [fmt.Sprint] on floats, [strconv.ParseFloat], the [float64] comparisons
    and [regexp.MatchString] belong to the Go standard library, not to the
    package: they are taken as an interface.  [ParseFloat] and
    [MatchString] answer [None] where the Go function returns a non-nil
    error. *)

Class GoRuntime : Type := {
  float64 : Type;
  float32 : Type;
  float64_of_int : Z -> float64;
  float64_of_float32 : float32 -> float64;
  float64_ltb : float64 -> float64 -> bool;
  float64_leb : float64 -> float64 -> bool;
  FormatFloat64 : float64 -> string;
  FormatFloat32 : float32 -> string;
  ParseFloat : string -> option float64;
  MatchString : string -> string -> option bool
}.

(** ** Package [strings], on byte strings *)

Definition HasPrefix (s pfx : string) : bool := String.prefix pfx s.

Definition HasSuffix (s sfx : string) : bool :=
  (String.length sfx <=? String.length s)%nat
  && String.eqb
       (String.substring (String.length s - String.length sfx)
          (String.length sfx) s)
       sfx.

Fixpoint Contains (s substr : string) : bool :=
  String.prefix substr s
  || match s with
     | EmptyString => false
     | String _ s' => Contains s' substr
     end.

Fixpoint join_space (l : list string) : string :=
  match l with
  | [] => ""
  | [x] => x
  | x :: l' => x +:+ " " +:+ join_space l'
  end.

(** ** errors.go *)

Inductive Error : Type :=
| ErrFlagNotFound
| ErrInvalidOperator
| ErrInvalidRollout
| ErrInvalidCondition
| ErrRolloutKeyMissing
| ErrRegexpSyntax (pattern : string).

(** ** operator.go *)

Definition Operator : Type := string.

Definition OperatorEqual : Operator := "==".
Definition OperatorNotEqual : Operator := "!=".
Definition OperatorIn : Operator := "in".
Definition OperatorNotIn : Operator := "not_in".
Definition OperatorGreaterThan : Operator := ">".
Definition OperatorGreaterThanOrEqual : Operator := ">=".
Definition OperatorLessThan : Operator := "<".
Definition OperatorLessThanOrEqual : Operator := "<=".
Definition OperatorContains : Operator := "contains".
Definition OperatorStartsWith : Operator := "starts_with".
Definition OperatorEndsWith : Operator := "ends_with".
Definition OperatorRegex : Operator := "regex".

Definition recognizedOperators : list Operator :=
  [ OperatorEqual; OperatorNotEqual; OperatorIn; OperatorNotIn;
    OperatorGreaterThan; OperatorGreaterThanOrEqual;
    OperatorLessThan; OperatorLessThanOrEqual;
    OperatorContains; OperatorStartsWith; OperatorEndsWith;
    OperatorRegex ].

(** [Operator.IsValid]: the [switch] over the twelve constants. *)
Definition IsValid (o : Operator) : bool :=
  existsb (String.eqb o) recognizedOperators.

(** ** Package [time]

    A [Time] is an instant, counted in nanoseconds from Go's zero time; a
    [Duration] is an [int64] count of nanoseconds.  [Time.Sub] saturates
    at the smallest and largest [Duration]. *)

Definition Time : Type := Z.
Definition Duration : Type := Z.

Definition Minute : Duration := 60 * 1000000000.
Definition Hour : Duration := 60 * Minute.

Definition Time_Sub (t u : Time) : Duration :=
  let d := t - u in
  if d <? minInt64 then minInt64
  else if d >? maxInt64 then maxInt64
  else d.

Definition Time_Add (t : Time) (d : Duration) : Time := t + d.

Definition Time_Truncate (t : Time) (d : Duration) : Time :=
  if d <=? 0 then t else t - t mod d.

Section Toggo.

Context `{RT : GoRuntime}.

(** ** Dynamic values ([interface{}])

    The constructors are the dynamic types the package's type switches
    tell apart ([toFloat64], [evaluateIn]); [VBool] and [VNil] fall in
    their [default] branches, and so does [VOther], a value of any other
    type, kept with its [fmt.Sprint] rendering. *)

Inductive Value : Type :=
| VNil
| VBool (b : bool)
| VInt (n : Z)
| VInt64 (n : Z)
| VInt32 (n : Z)
| VFloat64 (x : float64)
| VFloat32 (x : float32)
| VString (s : string)
| VSlice (l : list Value)
| VStrings (l : list string)
| VOther (rendering : string).

(** [fmt.Sprint(v)] for one operand. *)
Fixpoint Sprint (v : Value) : string :=
  match v with
  | VNil => "<nil>"
  | VBool b => if b then "true" else "false"
  | VInt n | VInt64 n | VInt32 n => pretty n
  | VFloat64 x => FormatFloat64 x
  | VFloat32 x => FormatFloat32 x
  | VString s => s
  | VSlice l => "[" +:+ join_space (map Sprint l) +:+ "]"
  | VStrings l => "[" +:+ join_space l +:+ "]"
  | VOther r => r
  end.

(** ** context.go *)

Abbreviation Context := (gmap string Value).

(** [Context.Get]: the value and whether the key exists. *)
Definition Get (c : Context) (key : string) : option Value := c !! key.

(** ** condition.go

    The fields [Operator] and [Value] of the Go struct are [Operator_] and
    [Value_] here, the plain names being those of the types. *)

Record Condition : Type := {
  Attribute : string;
  Operator_ : Operator;
  Value_ : Value;
  Negate : bool
}.

Definition Condition_Validate (c : Condition) : option Error :=
  if String.eqb (Attribute c) "" then Some ErrInvalidCondition
  else if negb (IsValid (Operator_ c)) then Some ErrInvalidOperator
  else None.

(** ** The condition evaluator *)

(** [conditionEvaluator.toFloat64]; [None] is a non-nil error. *)
Definition toFloat64 (value : Value) : option float64 :=
  match value with
  | VFloat64 v => Some v
  | VFloat32 v => Some (float64_of_float32 v)
  | VInt v => Some (float64_of_int v)
  | VInt64 v => Some (float64_of_int v)
  | VInt32 v => Some (float64_of_int v)
  | VString v => ParseFloat v
  | _ => None
  end.

Definition applyNegate (result negate : bool) : bool :=
  if negate then negb result else result.

Definition evaluateEqual (ctxValue condValue : Value) : bool :=
  String.eqb (Sprint ctxValue) (Sprint condValue).

Definition evaluateIn (ctxValue condValue : Value) : bool :=
  let ctxStr := Sprint ctxValue in
  match condValue with
  | VSlice v => existsb (fun item => String.eqb (Sprint item) ctxStr) v
  | VStrings v => existsb (fun item => String.eqb item ctxStr) v
  | _ => evaluateEqual ctxValue condValue
  end.

Definition evaluateGreaterThan (ctxValue condValue : Value) (orEqual : bool) : bool :=
  match toFloat64 ctxValue, toFloat64 condValue with
  | Some ctxNum, Some condNum =>
      if orEqual then float64_leb condNum ctxNum
      else float64_ltb condNum ctxNum
  | _, _ =>
      let ctxStr := Sprint ctxValue in
      let condStr := Sprint condValue in
      if orEqual then String.leb condStr ctxStr
      else String.ltb condStr ctxStr
  end.

Definition evaluateLessThan (ctxValue condValue : Value) (orEqual : bool) : bool :=
  match toFloat64 ctxValue, toFloat64 condValue with
  | Some ctxNum, Some condNum =>
      if orEqual then float64_leb ctxNum condNum
      else float64_ltb ctxNum condNum
  | _, _ =>
      let ctxStr := Sprint ctxValue in
      let condStr := Sprint condValue in
      if orEqual then String.leb ctxStr condStr
      else String.ltb ctxStr condStr
  end.

Definition evaluateContains (ctxValue condValue : Value) : bool :=
  Contains (Sprint ctxValue) (Sprint condValue).

Definition evaluateStartsWith (ctxValue condValue : Value) : bool :=
  HasPrefix (Sprint ctxValue) (Sprint condValue).

Definition evaluateEndsWith (ctxValue condValue : Value) : bool :=
  HasSuffix (Sprint ctxValue) (Sprint condValue).

Definition evaluateRegex (ctxValue condValue : Value) : bool * option Error :=
  let ctxStr := Sprint ctxValue in
  let pattern := Sprint condValue in
  match MatchString pattern ctxStr with
  | None => (false, Some (ErrRegexpSyntax pattern))
  | Some matched => (matched, None)
  end.

(** [conditionEvaluator.evaluateOperator]: the [switch] on the operator. *)
Definition evaluateOperator (op : Operator) (ctxValue condValue : Value)
  : bool * option Error :=
  if String.eqb op OperatorEqual then
    (evaluateEqual ctxValue condValue, None)
  else if String.eqb op OperatorNotEqual then
    (negb (evaluateEqual ctxValue condValue), None)
  else if String.eqb op OperatorIn then
    (evaluateIn ctxValue condValue, None)
  else if String.eqb op OperatorNotIn then
    (negb (evaluateIn ctxValue condValue), None)
  else if String.eqb op OperatorGreaterThan then
    (evaluateGreaterThan ctxValue condValue false, None)
  else if String.eqb op OperatorGreaterThanOrEqual then
    (evaluateGreaterThan ctxValue condValue true, None)
  else if String.eqb op OperatorLessThan then
    (evaluateLessThan ctxValue condValue false, None)
  else if String.eqb op OperatorLessThanOrEqual then
    (evaluateLessThan ctxValue condValue true, None)
  else if String.eqb op OperatorContains then
    (evaluateContains ctxValue condValue, None)
  else if String.eqb op OperatorStartsWith then
    (evaluateStartsWith ctxValue condValue, None)
  else if String.eqb op OperatorEndsWith then
    (evaluateEndsWith ctxValue condValue, None)
  else if String.eqb op OperatorRegex then
    evaluateRegex ctxValue condValue
  else (false, Some ErrInvalidOperator).

(** [conditionEvaluator.evaluate] *)
Definition evaluate (condition : Condition) (ctx : Context) : bool * option Error :=
  match Condition_Validate condition with
  | Some err => (false, Some err)
  | None =>
      match Get ctx (Attribute condition) with
      | None => (applyNegate false (Negate condition), None)
      | Some value =>
          match evaluateOperator (Operator_ condition) value (Value_ condition) with
          | (_, Some err) => (false, Some err)
          | (result, None) => (applyNegate result (Negate condition), None)
          end
      end
  end.

(** [conditionEvaluator.evaluateAll]: the [for] loop with its two early
    returns. *)
Fixpoint evaluateAll (conditions : list Condition) (ctx : Context)
  : bool * option Error :=
  match conditions with
  | [] => (true, None)
  | cond :: rest =>
      match evaluate cond ctx with
      | (_, Some err) => (false, Some err)
      | (false, None) => (false, None)
      | (true, None) => evaluateAll rest ctx
      end
  end.

(** ** Flags and variants

    [Variant]'s fields [Name] and [Conditions] are [Variant_Name] and
    [Variant_Conditions], [Flag] having fields of the same names. *)

Record Variant : Type := {
  Variant_Name : string;
  Weight : Z;
  Variant_Conditions : list Condition
}.

Record Flag : Type := {
  Name : string;
  Enabled : bool;
  Rollout : Z;
  RolloutKey : string;
  Conditions : list Condition;
  Variants : list Variant;
  DefaultVariant : string
}.

(** [for _, cond := range conds { if err := cond.Validate(); err != nil
    { return err } }] *)
Fixpoint validateConditions (conds : list Condition) : option Error :=
  match conds with
  | [] => None
  | cond :: rest =>
      match Condition_Validate cond with
      | Some err => Some err
      | None => validateConditions rest
      end
  end.

(** The loop over [f.Variants] in [Flag.Validate]: the error it returns,
    or the total weight it leaves. *)
Fixpoint validateVariants (variants : list Variant) (totalWeight : Z) : Error + Z :=
  match variants with
  | [] => inr totalWeight
  | variant :: rest =>
      if (Weight variant <? 0) || (Weight variant >? 100) then inl ErrInvalidRollout
      else
        let totalWeight := int_add totalWeight (Weight variant) in
        match validateConditions (Variant_Conditions variant) with
        | Some err => inl err
        | None => validateVariants rest totalWeight
        end
  end.

(** [Flag.Validate] *)
Definition Flag_Validate (f : Flag) : option Error :=
  if String.eqb (Name f) "" then Some ErrInvalidCondition
  else if (Rollout f <? 0) || (Rollout f >? 100) then Some ErrInvalidRollout
  else
    match validateConditions (Conditions f) with
    | Some err => Some err
    | None =>
        match validateVariants (Variants f) 0 with
        | inl err => Some err
        | inr totalWeight =>
            if (0 <? length (Variants f))%nat && (totalWeight >? 100)
            then Some ErrInvalidRollout
            else None
        end
    end.

Definition HasVariants (f : Flag) : bool := (0 <? length (Variants f))%nat.

Definition GetRolloutKey (f : Flag) : string :=
  if negb (String.eqb (RolloutKey f) "") then RolloutKey f else "user_id".

(** ** rollout.go *)

(** [type RolloutStrategy interface]: the two methods.  A method call may
    panic, hence the [outcome]. *)
Record RolloutStrategy : Type := {
  ShouldRollout : Flag -> Context -> outcome (bool * option Error);
  GetVariant : Flag -> Context -> outcome (string * option Error)
}.

Record DefaultRolloutStrategy : Type := { hasher : hash.Hasher }.

Definition NewDefaultRolloutStrategy (h : option hash.Hasher) : DefaultRolloutStrategy :=
  match h with
  | None => {| hasher := hash.NewFNV |}
  | Some h => {| hasher := h |}
  end.

(** [DefaultRolloutStrategy.ShouldRollout] *)
Definition Default_ShouldRollout (r : DefaultRolloutStrategy) (flag : Flag) (ctx : Context)
  : bool * option Error :=
  if Rollout flag >=? 100 then (true, None)
  else if Rollout flag <=? 0 then (false, None)
  else
    let rolloutKey := GetRolloutKey flag in
    match Get ctx rolloutKey with
    | None => (false, None)
    | Some keyValue =>
        let hashKey := Name flag +:+ ":" +:+ Sprint keyValue in
        let hashValue := hash.Hash (hasher r) hashKey in
        (hashValue <? Rollout flag, None)
    end.

(** The loop of [DefaultRolloutStrategy.GetVariant] over [flag.Variants]:
    the name it returns from inside the loop, or [None] when the loop
    runs to its end. *)
Fixpoint selectByWeight (variants : list Variant) (cumulative hashValue : Z)
  : option string :=
  match variants with
  | [] => None
  | variant :: rest =>
      let cumulative := int_add cumulative (Weight variant) in
      if hashValue <? cumulative then Some (Variant_Name variant)
      else selectByWeight rest cumulative hashValue
  end.

(** [DefaultRolloutStrategy.GetVariant] *)
Definition Default_GetVariant (r : DefaultRolloutStrategy) (flag : Flag) (ctx : Context)
  : string * option Error :=
  if negb (HasVariants flag) then (DefaultVariant flag, None)
  else
    let rolloutKey := GetRolloutKey flag in
    match Get ctx rolloutKey with
    | None => (DefaultVariant flag, None)
    | Some keyValue =>
        let hashKey := Name flag +:+ ":variant:" +:+ Sprint keyValue in
        let hashValue := hash.Hash (hasher r) hashKey in
        match selectByWeight (Variants flag) 0 hashValue with
        | Some name => (name, None)
        | None => (DefaultVariant flag, None)
        end
    end.

(** [*DefaultRolloutStrategy] as a [RolloutStrategy]. *)
Definition DefaultStrategy (r : DefaultRolloutStrategy) : RolloutStrategy :=
  {| ShouldRollout := fun flag ctx => Ok (Default_ShouldRollout r flag ctx);
     GetVariant := fun flag ctx => Ok (Default_GetVariant r flag ctx) |}.

(** ** The switchback strategy *)

Record SwitchbackRolloutStrategy : Type := {
  baseStrategy : DefaultRolloutStrategy;
  intervalMinutes : Z;
  startTime : Time;
  swapDaily : bool;
  timeProvider : unit -> Time
}.

Definition SwitchbackOption : Type :=
  SwitchbackRolloutStrategy -> SwitchbackRolloutStrategy.

Definition WithIntervalMinutes (minutes : Z) : SwitchbackOption :=
  fun s =>
    {| baseStrategy := baseStrategy s; intervalMinutes := minutes;
       startTime := startTime s; swapDaily := swapDaily s;
       timeProvider := timeProvider s |}.

Definition WithStartTime (t : Time) : SwitchbackOption :=
  fun s =>
    {| baseStrategy := baseStrategy s; intervalMinutes := intervalMinutes s;
       startTime := t; swapDaily := swapDaily s;
       timeProvider := timeProvider s |}.

Definition WithDailySwap (enabled : bool) : SwitchbackOption :=
  fun s =>
    {| baseStrategy := baseStrategy s; intervalMinutes := intervalMinutes s;
       startTime := startTime s; swapDaily := enabled;
       timeProvider := timeProvider s |}.

(** The assignment [strategy.timeProvider = ...] by which the package's
    tests substitute the time source. *)
Definition set_timeProvider (provider : unit -> Time) : SwitchbackOption :=
  fun s =>
    {| baseStrategy := baseStrategy s; intervalMinutes := intervalMinutes s;
       startTime := startTime s; swapDaily := swapDaily s;
       timeProvider := provider |}.

(** [NewSwitchbackRolloutStrategy]; [timeNow] is the system clock
    [time.Now]. *)
Definition NewSwitchbackRolloutStrategy (timeNow : unit -> Time)
    (opts : list SwitchbackOption) : SwitchbackRolloutStrategy :=
  let s :=
    {| baseStrategy := NewDefaultRolloutStrategy (Some hash.NewFNV);
       intervalMinutes := 30;
       startTime := Time_Truncate (timeNow tt) (24 * Hour);
       swapDaily := false;
       timeProvider := timeNow |} in
  fold_left (fun s opt => opt s) opts s.

Definition GetCurrentInterval (s : SwitchbackRolloutStrategy) : outcome Z :=
  let now := timeProvider s tt in
  let elapsed := Time_Sub now (startTime s) in
  let intervalDuration := int_mul (intervalMinutes s) Minute in
  int_quo elapsed intervalDuration.

Definition GetCurrentDay (s : SwitchbackRolloutStrategy) : Z :=
  let now := timeProvider s tt in
  let elapsed := Time_Sub now (startTime s) in
  wrap64 (Z.quot elapsed (24 * Hour)).

Definition Switchback_ShouldRollout (s : SwitchbackRolloutStrategy)
    (flag : Flag) (ctx : Context) : bool * option Error :=
  (true, None).

(** [SwitchbackRolloutStrategy.GetVariant] *)
Definition Switchback_GetVariant (s : SwitchbackRolloutStrategy)
    (flag : Flag) (ctx : Context) : outcome (string * option Error) :=
  if negb (HasVariants flag) then Ok (DefaultVariant flag, None)
  else
    obind (GetCurrentInterval s) (fun intervalNum =>
    let dayNum := GetCurrentDay s in
    let numVariants := Z.of_nat (length (Variants flag)) in
    if numVariants =? 0 then Ok (DefaultVariant flag, None)
    else
      obind (int_rem intervalNum numVariants) (fun variantIndex =>
      let variantIndex :=
        if swapDaily s && (Z.rem dayNum 2 =? 1)
        then int_sub (int_sub numVariants 1) variantIndex
        else variantIndex in
      obind (index_slice (Variants flag) variantIndex) (fun variant =>
      Ok (Variant_Name variant, None)))).

(** [*SwitchbackRolloutStrategy] as a [RolloutStrategy]. *)
Definition SwitchbackStrategy (s : SwitchbackRolloutStrategy) : RolloutStrategy :=
  {| ShouldRollout := fun flag ctx => Ok (Switchback_ShouldRollout s flag ctx);
     GetVariant := Switchback_GetVariant s |}.

(** ** store.go

    The store is the state of the methods below: the flag map and the
    rollout strategy (the evaluator is an empty struct, and the mutex
    orders accesses that are sequential here).  A [Store] is one that
    [NewStore] built: its map is allocated and its strategy is set.  A
    method is a state transformer that yields an outcome. *)

Record Store : Type := {
  flags : gmap string Flag;
  rolloutStrategy : RolloutStrategy
}.

Definition M (A : Type) : Type := Store -> outcome A * Store.

Definition ret {A : Type} (a : A) : M A := fun s => (Ok a, s).

Definition bind {A B : Type} (m : M A) (k : A -> M B) : M B :=
  fun s =>
    match m s with
    | (Ok a, s') => k a s'
    | (Panic p, s') => (Panic p, s')
    end.

Definition gets {A : Type} (f : Store -> A) : M A := fun s => (Ok (f s), s).

Definition modify (f : Store -> Store) : M unit := fun s => (Ok tt, f s).

Definition panic {A : Type} (p : PanicKind) : M A := fun s => (Panic p, s).

Definition lift {A : Type} (o : outcome A) : M A := fun s => (o, s).

Notation "'let*' x ':=' m 'in' k" := (bind m (fun x => k))
  (at level 10, x pattern, m at level 100, k at level 200, only parsing).

Definition set_flags (m : gmap string Flag) (s : Store) : Store :=
  {| flags := m; rolloutStrategy := rolloutStrategy s |}.

Definition set_rolloutStrategy (r : RolloutStrategy) (s : Store) : Store :=
  {| flags := flags s; rolloutStrategy := r |}.

Definition StoreOption : Type := Store -> Store.

(** [WithSwitchback] *)
Definition WithSwitchback (timeNow : unit -> Time) (opts : list SwitchbackOption)
  : StoreOption :=
  fun store =>
    set_rolloutStrategy
      (SwitchbackStrategy (NewSwitchbackRolloutStrategy timeNow opts)) store.

(** [NewStore] *)
Definition NewStore (opts : list StoreOption) : Store :=
  let store :=
    {| flags := ∅;
       rolloutStrategy := DefaultStrategy (NewDefaultRolloutStrategy None) |} in
  fold_left (fun store opt => opt store) opts store.

(** [Store.AddFlag] *)
Definition AddFlag (flag : Flag) : M (option Error) :=
  match Flag_Validate flag with
  | Some err => ret (Some err)
  | None =>
      let* _ := modify (fun s => set_flags (<[Name flag := flag]> (flags s)) s) in
      ret None
  end.

(** [Store.AddFlags] *)
Fixpoint AddFlags (fs : list Flag) : M (option Error) :=
  match fs with
  | [] => ret None
  | flag :: rest =>
      let* err := AddFlag flag in
      match err with
      | Some err => ret (Some err)
      | None => AddFlags rest
      end
  end.

(** [Store.RemoveFlag] *)
Definition RemoveFlag (name : string) : M unit :=
  modify (fun s => set_flags (delete name (flags s)) s).

(** [Store.GetFlag]: the flag pointer and the error. *)
Definition GetFlag (name : string) : M (option Flag * option Error) :=
  let* flag := gets (fun s => flags s !! name) in
  match flag with
  | None => ret (None, Some ErrFlagNotFound)
  | Some flag => ret (Some flag, None)
  end.

(** [Store.IsEnabledWithError] *)
Definition IsEnabledWithError (name : string) (ctx : Context)
  : M (bool * option Error) :=
  let* (flag, err) := GetFlag name in
  match err, flag with
  | Some err, _ => ret (false, Some err)
  | None, None => panic NilDereference
  | None, Some flag =>
      if negb (Enabled flag) then ret (false, None)
      else if HasVariants flag then ret (false, None)
      else
        match evaluateAll (Conditions flag) ctx with
        | (_, Some err) => ret (false, Some err)
        | (false, None) => ret (false, None)
        | (true, None) =>
            let* strategy := gets rolloutStrategy in
            let* (shouldRollout, err) := lift (ShouldRollout strategy flag ctx) in
            match err with
            | Some err => ret (false, Some err)
            | None => ret (shouldRollout, None)
            end
        end
  end.

(** [Store.IsEnabled] *)
Definition IsEnabled (name : string) (ctx : Context) : M bool :=
  let* (result, _) := IsEnabledWithError name ctx in
  ret result.

(** The loop of [Store.GetVariantWithError] that looks the selected
    variant up by name: what it returns from inside the loop, or [None]
    when it runs to its end. *)
Fixpoint findVariant (variants : list Variant) (variantName : string)
    (flag : Flag) (ctx : Context) : option (string * bool * option Error) :=
  match variants with
  | [] => None
  | variant :: rest =>
      if String.eqb (Variant_Name variant) variantName then
        if (0 <? length (Variant_Conditions variant))%nat then
          match evaluateAll (Variant_Conditions variant) ctx with
          | (_, Some err) => Some ("", false, Some err)
          | (false, None) => Some (DefaultVariant flag, false, None)
          | (true, None) => Some (Variant_Name variant, true, None)
          end
        else Some (Variant_Name variant, true, None)
      else findVariant rest variantName flag ctx
  end.

(** [Store.GetVariantWithError] *)
Definition GetVariantWithError (name : string) (ctx : Context)
  : M (string * bool * option Error) :=
  let* (flag, err) := GetFlag name in
  match err, flag with
  | Some err, _ => ret ("", false, Some err)
  | None, None => panic NilDereference
  | None, Some flag =>
      if negb (Enabled flag) then ret (DefaultVariant flag, false, None)
      else
        match evaluateAll (Conditions flag) ctx with
        | (_, Some err) => ret ("", false, Some err)
        | (false, None) => ret (DefaultVariant flag, false, None)
        | (true, None) =>
            let* strategy := gets rolloutStrategy in
            if negb (HasVariants flag) then
              let* (shouldRollout, err) := lift (ShouldRollout strategy flag ctx) in
              match err with
              | Some err => ret ("", false, Some err)
              | None =>
                  if shouldRollout then ret ("on", true, None)
                  else ret ("off", false, None)
              end
            else
              let* (variantName, err) := lift (GetVariant strategy flag ctx) in
              match err with
              | Some err => ret ("", false, Some err)
              | None =>
                  match findVariant (Variants flag) variantName flag ctx with
                  | Some result => ret result
                  | None => ret (DefaultVariant flag, false, None)
                  end
              end
        end
  end.

(** [Store.GetVariant] *)
Definition Store_GetVariant (name : string) (ctx : Context) : M (string * bool) :=
  let* (variant, enabled, _) := GetVariantWithError name ctx in
  ret (variant, enabled).

(** [Store.Clear] *)
Definition Clear : M unit := modify (set_flags ∅).

(** [Store.Size] *)
Definition Size : M Z := gets (fun s => Z.of_nat (size (flags s))).

End Toggo.

Abbreviation Context := (gmap string Value).

(** ** Specification-side definitions *)

Section SpecDefinitions.

Context `{RT : GoRuntime}.

(** The cumulative weight after the variant of index [i]: the weights of
    the variants of index [0] to [i], added in declaration order as Go
    [int]s, on top of [start]. *)
Definition cumulativeWeightFrom (start : Z) (variants : list Variant) (i : nat) : Z :=
  fold_left int_add (map Weight (firstn (S i) variants)) start.

Definition cumulativeWeight (variants : list Variant) (i : nat) : Z :=
  cumulativeWeightFrom 0 variants i.

(** The sum of the variant weights, as a mathematical integer. *)
Definition totalWeight (variants : list Variant) : Z :=
  fold_right Z.add 0 (map Weight variants).

(** The validity predicate of the data model. *)
Definition condition_valid (c : Condition) : Prop :=
  Attribute c <> "" /\ In (Operator_ c) recognizedOperators.

Definition variant_valid (v : Variant) : Prop :=
  0 <= Weight v <= 100 /\ Forall condition_valid (Variant_Conditions v).

Definition flag_valid (f : Flag) : Prop :=
  Name f <> "" /\
  0 <= Rollout f <= 100 /\
  Forall condition_valid (Conditions f) /\
  Forall variant_valid (Variants f) /\
  totalWeight (Variants f) <= 100.

(** A slice of [Variant]s fits in the address space of a Go process, which
    is below [2^48] bytes, a [Variant] taking more than one byte. *)
Definition representable (f : Flag) : Prop :=
  Z.of_nat (length (Variants f)) < 2 ^ 48.

Definition store_valid (s : Store) : Prop :=
  forall name f, flags s !! name = Some f -> flag_valid f.

(** The operations that change the registry. *)
Inductive Op : Type :=
| OpAddFlag (flag : Flag)
| OpAddFlags (fs : list Flag)
| OpRemoveFlag (name : string)
| OpClear.

Definition op_representable (o : Op) : Prop :=
  match o with
  | OpAddFlag flag => representable flag
  | OpAddFlags fs => Forall representable fs
  | OpRemoveFlag _ | OpClear => True
  end.

(** The state an operation leaves. *)
Definition run_op (o : Op) (s : Store) : Store :=
  match o with
  | OpAddFlag flag => snd (AddFlag flag s)
  | OpAddFlags fs => snd (AddFlags fs s)
  | OpRemoveFlag name => snd (RemoveFlag name s)
  | OpClear => snd (Clear s)
  end.

(** The states reachable from a freshly constructed store. *)
Inductive reachable : Store -> Prop :=
| reachable_new (timeNow : unit -> Time) (opts : option (list SwitchbackOption)) :
    reachable
      (NewStore match opts with
                | None => []
                | Some opts => [WithSwitchback timeNow opts]
                end)
| reachable_step (s : Store) (o : Op) :
    reachable s -> op_representable o -> reachable (run_op o s).

(** The evaluation operations, which only read the registry. *)
Inductive Query : Type :=
| QIsEnabled (name : string) (ctx : Context)
| QIsEnabledWithError (name : string) (ctx : Context)
| QGetVariant (name : string) (ctx : Context)
| QGetVariantWithError (name : string) (ctx : Context)
| QGetFlag (name : string)
| QSize.

Definition run_query (q : Query) (s : Store) : Store :=
  match q with
  | QIsEnabled name ctx => snd (IsEnabled name ctx s)
  | QIsEnabledWithError name ctx => snd (IsEnabledWithError name ctx s)
  | QGetVariant name ctx => snd (Store_GetVariant name ctx s)
  | QGetVariantWithError name ctx => snd (GetVariantWithError name ctx s)
  | QGetFlag name => snd (GetFlag name s)
  | QSize => snd (Size s)
  end.

(** A method that leaves the store as it found it. *)
Definition readonly {A : Type} (m : M A) : Prop := forall s, snd (m s) = s.

End SpecDefinitions.

(** ** The rest of the package *)

Section Rest.

Context `{RT : GoRuntime}.

Notation "'let*' x ':=' m 'in' k" := (bind m (fun x => k))
  (at level 10, x pattern, m at level 100, k at level 200, only parsing).

(** *** context.go *)

(** [Context.Set], [c[key] = value], on an allocated map: Go updates the
    map in place; here the updated map is the result.  Go keeps a nil
    [Context] apart from an empty one: [Get] reads both alike, but the
    assignment to a nil map stops the program.  A [gmap] does not tell
    the two apart, so this is the update of an allocated map only; it
    serves below to build a context that holds one more attribute. *)
Definition Context_Set (c : Context) (key : string) (value : Value) : Context :=
  <[key := value]> c.

(** *** store.go *)

(** [Store.ListFlags]: the names met by the iteration over the map.  Go
    leaves the order of that iteration unspecified; [map_to_list] fixes
    one, and nothing below depends on which. *)
Definition ListFlags : M (list string) :=
  gets (fun s => (map_to_list (flags s)).*1).

(** *** The switchback strategy: timing *)

(** [SwitchbackRolloutStrategy.GetTimeUntilNextSwitch] *)
Definition GetTimeUntilNextSwitch (s : SwitchbackRolloutStrategy) : outcome Duration :=
  let now := timeProvider s tt in
  let elapsed := Time_Sub now (startTime s) in
  let intervalDuration := int_mul (intervalMinutes s) Minute in
  obind (int_quo elapsed intervalDuration) (fun currentInterval =>
  let nextSwitchTime :=
    Time_Add (startTime s) (int_mul (int_add currentInterval 1) intervalDuration) in
  Ok (Time_Sub nextSwitchTime now)).

Record SwitchbackInfo : Type := {
  CurrentInterval : Z;
  CurrentDay : Z;
  TimeUntilSwitch : Duration;
  IntervalDuration : Duration
}.

(** [SwitchbackRolloutStrategy.GetInfo]: the fields of the struct literal
    are evaluated in order. *)
Definition GetInfo (s : SwitchbackRolloutStrategy) : outcome SwitchbackInfo :=
  obind (GetCurrentInterval s) (fun currentInterval =>
  let currentDay := GetCurrentDay s in
  obind (GetTimeUntilNextSwitch s) (fun timeUntilSwitch =>
  Ok {| CurrentInterval := currentInterval;
        CurrentDay := currentDay;
        TimeUntilSwitch := timeUntilSwitch;
        IntervalDuration := int_mul (intervalMinutes s) Minute |})).

(** *** Package [loader]

    [JSONLoader] and [YAMLLoader] differ in the decoder alone.  Opening the
    source and decoding the document belong to [os], [encoding/json] and
    [yaml.v3]; what they yield is the input here: the error of [os.Open],
    the error of [Decode], or the decoded [Config.Flags], a slice of flag
    pointers in which [None] is a [nil] pointer. *)

Inductive Decoded : Type :=
| OpenFailed (msg : string)
| DecodeFailed (msg : string)
| DecodedFlags (ptrs : list (option Flag)).

(** The errors a loader returns: those of the source, and the package's
    own. *)
Inductive LoaderError : Type :=
| ErrOpen (msg : string)
| ErrDecode (msg : string)
| ErrToggo (err : Error).

(** The loop [for _, flag := range config.Flags] of [Load]; the method call
    [flag.Validate()] on a [nil] pointer panics on its first field
    access. *)
Fixpoint validateLoaded (ptrs : list (option Flag)) : outcome (option Error) :=
  match ptrs with
  | [] => Ok None
  | None :: _ => Panic NilDereference
  | Some flag :: rest =>
      match Flag_Validate flag with
      | Some err => Ok (Some err)
      | None => validateLoaded rest
      end
  end.

(** [JSONLoader.Load], [YAMLLoader.Load] *)
Definition Load (d : Decoded) : outcome (list (option Flag) * option LoaderError) :=
  match d with
  | OpenFailed msg => Ok ([], Some (ErrOpen msg))
  | DecodeFailed msg => Ok ([], Some (ErrDecode msg))
  | DecodedFlags ptrs =>
      obind (validateLoaded ptrs) (fun err =>
      match err with
      | Some err => Ok ([], Some (ErrToggo err))
      | None => Ok (ptrs, None)
      end)
  end.

(** [Store.AddFlag] and [Store.AddFlags] as the loader calls them, on
    pointers: a [nil] pointer panics in [flag.Validate()]. *)
Definition AddFlag_ptr (ptr : option Flag) : M (option Error) :=
  match ptr with
  | None => panic NilDereference
  | Some flag => AddFlag flag
  end.

Fixpoint AddFlags_ptr (ptrs : list (option Flag)) : M (option Error) :=
  match ptrs with
  | [] => ret None
  | ptr :: rest =>
      let* err := AddFlag_ptr ptr in
      match err with
      | Some err => ret (Some err)
      | None => AddFlags_ptr rest
      end
  end.

(** [JSONLoader.LoadIntoStore], [YAMLLoader.LoadIntoStore] *)
Definition LoadIntoStore (d : Decoded) : M (option LoaderError) :=
  let* (ptrs, err) := lift (Load d) in
  match err with
  | Some err => ret (Some err)
  | None =>
      let* err := AddFlags_ptr ptrs in
      ret (option_map ErrToggo err)
  end.

(** *** Specification-side definitions for the rest *)

(** The map after inserting the flags in order, a later flag replacing an
    earlier one of the same name. *)
Definition insertAll (fs : list Flag) (m : gmap string Flag) : gmap string Flag :=
  fold_left (fun m f => <[Name f := f]> m) fs m.

Definition set_Negate (negate : bool) (c : Condition) : Condition :=
  {| Attribute := Attribute c; Operator_ := Operator_ c;
     Value_ := Value_ c; Negate := negate |}.

Definition set_Operator (op : Operator) (c : Condition) : Condition :=
  {| Attribute := Attribute c; Operator_ := op;
     Value_ := Value_ c; Negate := Negate c |}.

(** A flag with everything [Flag.Validate] does not read blanked out: the
    enabled bit, the rollout key, the default variant, the names of the
    variants, the values and the negate bits of the conditions. *)
Definition blank_condition (c : Condition) : Condition :=
  {| Attribute := Attribute c; Operator_ := Operator_ c;
     Value_ := VNil; Negate := false |}.

Definition blank_variant (v : Variant) : Variant :=
  {| Variant_Name := ""; Weight := Weight v;
     Variant_Conditions := map blank_condition (Variant_Conditions v) |}.

Definition validation_view (f : Flag) : Flag :=
  {| Name := Name f; Enabled := false; Rollout := Rollout f; RolloutKey := "";
     Conditions := map blank_condition (Conditions f);
     Variants := map blank_variant (Variants f);
     DefaultVariant := "" |}.

Definition set_Rollout (rollout : Z) (f : Flag) : Flag :=
  {| Name := Name f; Enabled := Enabled f; Rollout := rollout;
     RolloutKey := RolloutKey f; Conditions := Conditions f;
     Variants := Variants f; DefaultVariant := DefaultVariant f |}.

Definition set_Variants (variants : list Variant) (f : Flag) : Flag :=
  {| Name := Name f; Enabled := Enabled f; Rollout := Rollout f;
     RolloutKey := RolloutKey f; Conditions := Conditions f;
     Variants := variants; DefaultVariant := DefaultVariant f |}.

(** The two strategies the package defines. *)
Definition package_strategy (r : RolloutStrategy) : Prop :=
  (exists d, r = DefaultStrategy d) \/ (exists sb, r = SwitchbackStrategy sb).

(** The strategy read at the instant [now]. *)
Definition at_time (now : Time) (s : SwitchbackRolloutStrategy)
  : SwitchbackRolloutStrategy :=
  set_timeProvider (fun _ => now) s.

End Rest.

(** ** An instance of the library interface, to run the definitions

    The instance covers a fragment of the Go functions, on which it agrees
    with them.
    - Floats are the integers of magnitude below [2^53] ([2^24] for a
      [float32]), which the float types represent exactly.  [fmt.Sprint]
      formats a float with [%v], the shortest [%g]: plain decimal below
      [10^6], and from [10^6] up the exponent form, [1e+06] or
      [1.234567e+06], which [format_float] follows.
    - [ParseFloat] reads an optionally signed run of decimal digits, and
      fails on the empty string, on a lone sign and on a word such as
      ["premium"], as [strconv.ParseFloat] does.
    - On a pattern without metacharacter [regexp.MatchString] is a
      substring search; a pattern with a metacharacter is answered with
      the error, as [regexp.MatchString] does for ["("], whose
      parenthesis is never closed.
    Outside the fragment the instance is not a model of Go: a float that
    is not an integer or is as large as [2^53]; for [ParseFloat] a
    decimal point, an exponent, a hexadecimal form, underscores between
    digits and the words [inf], [infinity] and [nan], all of which Go
    reads and the instance refuses; a well-formed pattern with
    metacharacters.  The theorems below hold for every instance, and the
    examples stay within the fragment: the flags and contexts hold no
    float, and their only pattern with a metacharacter is ["("]. *)

Module Fragment.

Definition digit_of (c : ascii) : option Z :=
  let n := Z.of_N (N_of_ascii c) in
  if (48 <=? n) && (n <=? 57) then Some (n - 48) else None.

Fixpoint parse_digits (acc : Z) (s : string) : option Z :=
  match s with
  | EmptyString => Some acc
  | String c s' =>
      match digit_of c with
      | Some d => parse_digits (10 * acc + d) s'
      | None => None
      end
  end.

Definition parse_unsigned (s : string) : option Z :=
  match s with
  | EmptyString => None
  | _ => parse_digits 0 s
  end.

Definition parse_float (s : string) : option Z :=
  match s with
  | String "-" s' => option_map Z.opp (parse_unsigned s')
  | String "+" s' => parse_unsigned s'
  | _ => parse_unsigned s
  end.

(** The digits of the shortest decimal form: those of the integer without
    its trailing zeros. *)
Fixpoint drop_trailing_zeros (digits : string) : string :=
  match digits with
  | EmptyString => EmptyString
  | String c rest =>
      match drop_trailing_zeros rest with
      | EmptyString => if Ascii.eqb c "0" then EmptyString else String c EmptyString
      | kept => String c kept
      end
  end.

(** The exponent of [%e]: a sign and at least two digits. *)
Definition format_exponent (e : Z) : string :=
  "e+" +:+ (if e <? 10 then "0" else "") +:+ pretty e.

Definition format_magnitude (n : Z) : string :=
  let digits := pretty n in
  if n <? 1000000 then digits
  else
    match drop_trailing_zeros digits with
    | EmptyString => digits
    | String d EmptyString =>
        String d EmptyString +:+ format_exponent (Z.of_nat (String.length digits) - 1)
    | String d fraction =>
        String d ("." +:+ fraction)
          +:+ format_exponent (Z.of_nat (String.length digits) - 1)
    end.

Definition format_float (z : Z) : string :=
  if z <? 0 then "-" +:+ format_magnitude (- z) else format_magnitude z.

Definition metacharacters : list ascii :=
  list_ascii_of_string "\.+*?()|[]{}^$".

Definition is_literal (pattern : string) : bool :=
  forallb (fun c => negb (existsb (Ascii.eqb c) metacharacters))
    (list_ascii_of_string pattern).

Definition match_string (pattern s : string) : option bool :=
  if is_literal pattern then Some (Contains s pattern) else None.

#[export] Instance runtime : GoRuntime := {|
  float64 := Z;
  float32 := Z;
  float64_of_int := fun z => z;
  float64_of_float32 := fun z => z;
  float64_ltb := Z.ltb;
  float64_leb := Z.leb;
  FormatFloat64 := format_float;
  FormatFloat32 := format_float;
  ParseFloat := parse_float;
  MatchString := match_string
|}.

End Fragment.

(** ** Sample flags, contexts and stores *)

Module Examples.

Import Fragment.

Definition user1 : Context := {[ "user_id" := VString "user-1" ]}.

Definition simpleFlag (name : string) (rollout : Z) : Flag :=
  {| Name := name; Enabled := true; Rollout := rollout; RolloutKey := "";
     Conditions := []; Variants := []; DefaultVariant := "" |}.

Definition plainVariant (name : string) (weight : Z) : Variant :=
  {| Variant_Name := name; Weight := weight; Variant_Conditions := [] |}.

(** A half rollout; the bucket of ["rollout_flag:user-1"] is 12. *)
Definition rolloutFlag : Flag := simpleFlag "rollout_flag" 50.

(** The experiment of the store's own tests; the bucket of
    ["ab_test:variant:user-1"] is 39. *)
Definition abFlag : Flag :=
  {| Name := "ab_test"; Enabled := true; Rollout := 0; RolloutKey := "";
     Conditions := [];
     Variants := [plainVariant "control" 50; plainVariant "variation_a" 25;
                  plainVariant "variation_b" 25];
     DefaultVariant := "control" |}.

(** Weights that sum to 80, under a default variant of the given name;
    the bucket of ["pricing:variant:user-1"] is 97. *)
Definition pricingFlag (defaultVariant : string) : Flag :=
  {| Name := "pricing"; Enabled := true; Rollout := 0; RolloutKey := "";
     Conditions := [];
     Variants := [plainVariant "control" 50; plainVariant "treatment" 30];
     DefaultVariant := defaultVariant |}.

(** A flag whose condition holds a pattern that does not compile. *)
Definition unclosedGroup : Condition :=
  {| Attribute := "email"; Operator_ := OperatorRegex;
     Value_ := VString "("; Negate := false |}.

Definition betaFlag : Flag :=
  {| Name := "beta"; Enabled := true; Rollout := 100; RolloutKey := "";
     Conditions := [unclosedGroup]; Variants := [];
     DefaultVariant := "control" |}.

Definition withEmail : Context := {[ "email" := VString "a@b.c" ]}.

(** The weights still sum to 80, and the default variant is a variant of
    weight 0 whose condition holds the pattern that does not compile. *)
Definition guardedDefault : Variant :=
  {| Variant_Name := "holdout"; Weight := 0;
     Variant_Conditions := [unclosedGroup] |}.

Definition guardedFlag : Flag :=
  {| Name := "pricing"; Enabled := true; Rollout := 0; RolloutKey := "";
     Conditions := [];
     Variants := [plainVariant "control" 50; plainVariant "treatment" 30;
                  guardedDefault];
     DefaultVariant := "holdout" |}.

Definition user1WithEmail : Context := <["email" := VString "a@b.c"]> user1.

Definition countryIs (country : string) (negate : bool) : Condition :=
  {| Attribute := "country"; Operator_ := OperatorEqual;
     Value_ := VString country; Negate := negate |}.

Definition storeWith (flag : Flag) : Store := snd (AddFlag flag (NewStore [])).

(** Two variants switching every 30 minutes from [T0]. *)
Definition T0 : Time := 1000 * 24 * Hour.

Definition twoArms : Flag :=
  {| Name := "rebate"; Enabled := true; Rollout := 0; RolloutKey := "";
     Conditions := [];
     Variants := [plainVariant "A" 50; plainVariant "B" 50];
     DefaultVariant := "A" |}.

Definition switchbackAt (now : Time) : SwitchbackRolloutStrategy :=
  set_timeProvider (fun _ => now)
    (NewSwitchbackRolloutStrategy (fun _ => T0)
       [WithIntervalMinutes 30; WithStartTime T0]).

(** A store under the switchback strategy, holding the two-armed flag. *)
Definition switchbackStore (now : Time) : Store :=
  snd (AddFlag twoArms
         (NewStore [WithSwitchback (fun _ => now)
                      [WithIntervalMinutes 30; WithStartTime T0]])).

End Examples.

(** * Properties *)

Section Properties.

Context `{RT : GoRuntime}.

(** ** Machine arithmetic without overflow *)

Lemma wrap64_id (z : Z) : minInt64 <= z <= maxInt64 -> wrap64 z = z.
Proof.
  unfold wrap64, minInt64, maxInt64. intros Hz.
  rewrite Z.mod_small; lia.
Qed.

Lemma int_add_id (a b : Z) : minInt64 <= a + b <= maxInt64 -> int_add a b = a + b.
Proof. apply wrap64_id. Qed.

Lemma int_sub_id (a b : Z) : minInt64 <= a - b <= maxInt64 -> int_sub a b = a - b.
Proof. apply wrap64_id. Qed.

(** ** The hasher *)

Lemma FNVHasher_Hash_range (s : string) : 0 <= hash.FNVHasher_Hash s < 100.
Proof. unfold hash.FNVHasher_Hash. apply Z.mod_pos_bound. lia. Qed.

Lemma fnv32a_step_range (h : Z) (c : ascii) : 0 <= hash.fnv32a_step h c < 2 ^ 32.
Proof. unfold hash.fnv32a_step. apply Z.mod_pos_bound. lia. Qed.

Lemma fnv32a_write_range (s : string) (h : Z) :
  0 <= h < 2 ^ 32 -> 0 <= hash.fnv32a_write h s < 2 ^ 32.
Proof.
  revert h. induction s as [|c s IH]; intros h Hh; simpl.
  - exact Hh.
  - apply IH, fnv32a_step_range.
Qed.

Lemma Sum32_range (s : string) : 0 <= hash.Sum32 s < 2 ^ 32.
Proof. apply fnv32a_write_range. unfold hash.offset32. lia. Qed.

(** ** The deterministic-hash strategy *)

(** C1. [ShouldRollout] of the deterministic-hash strategy: true when the
    rollout is at least 100, whatever the context; false when it is at most
    0; otherwise false when the rollout key is absent from the context, and
    otherwise true exactly when the bucket of
    [flag.Name + ":" + Sprint(keyValue)] is below the rollout.  The bucket
    is the 32-bit FNV-1a sum modulo 100, hence in [0,100). *)
Theorem C1_ShouldRollout_deterministic_hash (flag : Flag) (ctx : Context) :
  let strategy := DefaultStrategy (NewDefaultRolloutStrategy None) in
  let bucket := fun keyValue =>
    hash.Sum32 (Name flag +:+ ":" +:+ Sprint keyValue) mod 100 in
  (100 <= Rollout flag ->
     forall ctx', ShouldRollout strategy flag ctx' = Ok (true, None)) /\
  (Rollout flag <= 0 ->
     forall ctx', ShouldRollout strategy flag ctx' = Ok (false, None)) /\
  (0 < Rollout flag < 100 -> ctx !! GetRolloutKey flag = None ->
     ShouldRollout strategy flag ctx = Ok (false, None)) /\
  (forall keyValue,
     0 < Rollout flag < 100 -> ctx !! GetRolloutKey flag = Some keyValue ->
     exists b, ShouldRollout strategy flag ctx = Ok (b, None) /\
               (b = true <-> bucket keyValue < Rollout flag)) /\
  (forall keyValue, 0 <= bucket keyValue < 100).
Proof.
  cbn zeta. unfold DefaultStrategy, Default_ShouldRollout, Get. cbn [ShouldRollout].
  repeat split.
  - intros Hhi ctx'. destruct (Rollout flag >=? 100) eqn:E; [reflexivity | lia].
  - intros Hlo ctx'.
    destruct (Rollout flag >=? 100) eqn:E1; [lia |].
    destruct (Rollout flag <=? 0) eqn:E2; [reflexivity | lia].
  - intros Hmid Habs.
    destruct (Rollout flag >=? 100) eqn:E1; [lia |].
    destruct (Rollout flag <=? 0) eqn:E2; [lia |].
    rewrite Habs. reflexivity.
  - intros keyValue Hmid Hkey.
    destruct (Rollout flag >=? 100) eqn:E1; [lia |].
    destruct (Rollout flag <=? 0) eqn:E2; [lia |].
    rewrite Hkey. eexists. split; [reflexivity |].
    cbn. unfold hash.FNVHasher_Hash. rewrite Z.ltb_lt. reflexivity.
  - apply Z.mod_pos_bound. lia.
  - apply Z.mod_pos_bound. lia.
Qed.

Lemma cumulativeWeightFrom_head (c : Z) (v : Variant) (vs : list Variant) :
  cumulativeWeightFrom c (v :: vs) 0 = int_add c (Weight v).
Proof. reflexivity. Qed.

Lemma cumulativeWeightFrom_tail (c : Z) (v : Variant) (vs : list Variant) (i : nat) :
  cumulativeWeightFrom c (v :: vs) (S i)
  = cumulativeWeightFrom (int_add c (Weight v)) vs i.
Proof. reflexivity. Qed.

Lemma totalWeight_cons (v : Variant) (vs : list Variant) :
  totalWeight (v :: vs) = Weight v + totalWeight vs.
Proof. reflexivity. Qed.

Lemma totalWeight_nonneg (vs : list Variant) :
  Forall (fun v => 0 <= Weight v) vs -> 0 <= totalWeight vs.
Proof.
  induction 1 as [|v vs Hv _ IH]; [cbn; lia |].
  rewrite totalWeight_cons. lia.
Qed.

(** Where the weights are non-negative and their sum fits an [int], the
    cumulative weight is the sum of the weights up to the index. *)
Lemma cumulativeWeightFrom_exact (vs : list Variant) (c : Z) (i : nat) :
  Forall (fun v => 0 <= Weight v) vs ->
  0 <= c -> c + totalWeight vs <= maxInt64 ->
  cumulativeWeightFrom c vs i = c + totalWeight (firstn (S i) vs).
Proof.
  intros Hvs. revert c i.
  induction Hvs as [|v vs Hv Hvs IH]; intros c i Hc Hfit.
  - cbn. lia.
  - rewrite totalWeight_cons in Hfit.
    pose proof (totalWeight_nonneg vs Hvs) as Hrest.
    assert (Hadd : int_add c (Weight v) = c + Weight v).
    { apply int_add_id. unfold minInt64, maxInt64 in *. lia. }
    destruct i as [|i].
    + rewrite cumulativeWeightFrom_head, Hadd.
      change (totalWeight (firstn 1 (v :: vs))) with (Weight v + 0). lia.
    + rewrite cumulativeWeightFrom_tail, Hadd, IH by lia.
      change (firstn (S (S i)) (v :: vs)) with (v :: firstn (S i) vs).
      rewrite totalWeight_cons. lia.
Qed.

(** The loop returns the first variant whose cumulative weight exceeds the
    bucket. *)
Lemma selectByWeight_first (vs : list Variant) (c h : Z) (i : nat) (v : Variant) :
  vs !! i = Some v ->
  h < cumulativeWeightFrom c vs i ->
  (forall j, (j < i)%nat -> cumulativeWeightFrom c vs j <= h) ->
  selectByWeight vs c h = Some (Variant_Name v).
Proof.
  revert c i. induction vs as [|w vs IH]; intros c i Hi Hlt Hfirst.
  - discriminate.
  - destruct i as [|i]; cbn [selectByWeight].
    + injection Hi as ->. rewrite cumulativeWeightFrom_head in Hlt.
      destruct (Z.ltb_spec h (int_add c (Weight v))); [reflexivity | lia].
    + assert (H0 : cumulativeWeightFrom c (w :: vs) 0 <= h) by (apply Hfirst; lia).
      rewrite cumulativeWeightFrom_head in H0.
      destruct (Z.ltb_spec h (int_add c (Weight w))); [lia |].
      apply (IH _ i); [exact Hi | exact Hlt |].
      intros j Hj. rewrite <- cumulativeWeightFrom_tail. apply Hfirst. lia.
Qed.

(** The loop runs to its end when no cumulative weight exceeds the bucket. *)
Lemma selectByWeight_none (vs : list Variant) (c h : Z) :
  (forall i, (i < length vs)%nat -> cumulativeWeightFrom c vs i <= h) ->
  selectByWeight vs c h = None.
Proof.
  revert c. induction vs as [|w vs IH]; intros c Hall; cbn [selectByWeight].
  - reflexivity.
  - assert (H0 : cumulativeWeightFrom c (w :: vs) 0 <= h)
      by (apply Hall; cbn [length]; lia).
    rewrite cumulativeWeightFrom_head in H0.
    destruct (Z.ltb_spec h (int_add c (Weight w))); [lia |].
    apply IH. intros i Hi. rewrite <- cumulativeWeightFrom_tail.
    apply Hall. cbn [length]. lia.
Qed.

(** C2. [GetVariant] of the deterministic-hash strategy: the default
    variant when the flag has no variants or the rollout key is absent;
    otherwise, with the bucket of [flag.Name + ":variant:" +
    Sprint(keyValue)], the name of the first variant, in declaration
    order, whose cumulative weight exceeds the bucket, and the default
    variant when no cumulative weight does.  The cumulative weight is the
    sum of the weights up to the variant, whenever the weights are
    non-negative and their sum fits an [int]. *)
Theorem C2_GetVariant_deterministic_hash (flag : Flag) (ctx : Context) :
  let strategy := DefaultStrategy (NewDefaultRolloutStrategy None) in
  let bucket := fun keyValue =>
    hash.FNVHasher_Hash (Name flag +:+ ":variant:" +:+ Sprint keyValue) in
  (Variants flag = [] ->
     GetVariant strategy flag ctx = Ok (DefaultVariant flag, None)) /\
  (ctx !! GetRolloutKey flag = None ->
     GetVariant strategy flag ctx = Ok (DefaultVariant flag, None)) /\
  (forall keyValue,
     Variants flag <> [] -> ctx !! GetRolloutKey flag = Some keyValue ->
     (forall i v,
        Variants flag !! i = Some v ->
        bucket keyValue < cumulativeWeight (Variants flag) i ->
        (forall j, (j < i)%nat ->
                   cumulativeWeight (Variants flag) j <= bucket keyValue) ->
        GetVariant strategy flag ctx = Ok (Variant_Name v, None)) /\
     ((forall i, (i < length (Variants flag))%nat ->
                 cumulativeWeight (Variants flag) i <= bucket keyValue) ->
      GetVariant strategy flag ctx = Ok (DefaultVariant flag, None))) /\
  (Forall (fun v => 0 <= Weight v) (Variants flag) ->
   totalWeight (Variants flag) <= maxInt64 ->
   forall i, cumulativeWeight (Variants flag) i
             = totalWeight (firstn (S i) (Variants flag))).
Proof.
  cbn zeta. unfold DefaultStrategy, Default_GetVariant, HasVariants, Get.
  cbn [GetVariant NewDefaultRolloutStrategy hasher hash.NewFNV hash.Hash].
  split; [| split; [| split]].
  - intros ->. reflexivity.
  - intros ->. destruct (negb _); reflexivity.
  - intros keyValue Hne Hkey. rewrite Hkey.
    assert (Hlen : (0 <? length (Variants flag))%nat = true).
    { destruct (Variants flag); [congruence | reflexivity]. }
    rewrite Hlen. cbn [negb]. split.
    + intros i v Hi Hlt Hfirst.
      rewrite (selectByWeight_first _ _ _ i v Hi Hlt Hfirst). reflexivity.
    + intros Hall. rewrite (selectByWeight_none _ _ _ Hall). reflexivity.
  - intros Hpos Hfit i. unfold cumulativeWeight.
    rewrite cumulativeWeightFrom_exact by (assumption || lia). lia.
Qed.

(** ** The condition evaluator *)

Lemma evaluateOperator_error (op : Operator) (x y : Value) (b : bool) (e : Error) :
  evaluateOperator op x y = (b, Some e) -> b = false.
Proof.
  unfold evaluateOperator, evaluateRegex.
  repeat (destruct (String.eqb op _); [congruence |]).
  destruct (String.eqb op _).
  - destruct (MatchString _ _); congruence.
  - congruence.
Qed.

(** An error of [evaluate] comes with the result [false]. *)
Lemma evaluate_error (c : Condition) (ctx : Context) (b : bool) (e : Error) :
  evaluate c ctx = (b, Some e) -> b = false.
Proof.
  unfold evaluate.
  destruct (Condition_Validate c); [congruence |].
  destruct (Get ctx (Attribute c)); [| congruence].
  destruct (evaluateOperator _ _ _) as [r [err|]]; congruence.
Qed.

Lemma evaluateAll_cons_true (c : Condition) (cs : list Condition) (ctx : Context) :
  evaluate c ctx = (true, None) ->
  evaluateAll (c :: cs) ctx = evaluateAll cs ctx.
Proof. intros H. cbn [evaluateAll]. rewrite H. reflexivity. Qed.

Lemma evaluateAll_cons_stop (c : Condition) (cs : list Condition) (ctx : Context) :
  evaluate c ctx <> (true, None) ->
  evaluateAll (c :: cs) ctx = evaluate c ctx.
Proof.
  intros H. cbn [evaluateAll].
  destruct (evaluate c ctx) as [b [e|]] eqn:E.
  - rewrite (evaluate_error _ _ _ _ E). reflexivity.
  - destruct b; [congruence | reflexivity].
Qed.

Lemma evaluateAll_true (cs : list Condition) (ctx : Context) :
  evaluateAll cs ctx = (true, None) <->
  Forall (fun c => evaluate c ctx = (true, None)) cs.
Proof.
  induction cs as [|c cs IH].
  - split; [constructor | reflexivity].
  - split.
    + intros H. cbn [evaluateAll] in H.
      destruct (evaluate c ctx) as [[|] [e|]] eqn:E; cbn iota in H;
        try discriminate H.
      constructor; [exact E | apply IH, H].
    + intros H. apply Forall_cons_iff in H as [Hc Hcs].
      rewrite (evaluateAll_cons_true _ _ _ Hc). apply IH, Hcs.
Qed.

(** C3. [evaluateAll] is a short-circuiting conjunction: the empty list is
    true; conditions are taken in list order, and the first one whose
    result is not a plain true ends the evaluation with that result,
    whatever follows it; a list whose conditions are all true is true; and
    [A, B] is true exactly when [A] and [B] are each true. *)
Theorem C3_evaluateAll_short_circuit (ctx : Context) :
  evaluateAll [] ctx = (true, None) /\
  (forall pre c post,
     Forall (fun x => evaluate x ctx = (true, None)) pre ->
     evaluate c ctx <> (true, None) ->
     evaluateAll (pre ++ c :: post)%list ctx = evaluate c ctx /\
     (evaluate c ctx = (false, None) \/
      exists err, evaluate c ctx = (false, Some err))) /\
  (forall cs,
     Forall (fun x => evaluate x ctx = (true, None)) cs ->
     evaluateAll cs ctx = (true, None)) /\
  (forall A B,
     evaluateAll [A; B] ctx = (true, None) <->
     evaluate A ctx = (true, None) /\ evaluate B ctx = (true, None)).
Proof.
  split; [reflexivity |]. split; [| split].
  - intros pre c post Hpre Hc. split.
    + induction Hpre as [|x pre Hx Hpre IH]; cbn [app].
      * apply evaluateAll_cons_stop, Hc.
      * rewrite (evaluateAll_cons_true _ _ _ Hx). exact IH.
    + destruct (evaluate c ctx) as [b [e|]] eqn:E.
      * right. exists e. rewrite (evaluate_error _ _ _ _ E). reflexivity.
      * left. destruct b; [congruence | reflexivity].
  - intros cs Hcs. apply evaluateAll_true, Hcs.
  - intros A B. rewrite evaluateAll_true. split.
    + intros H. apply Forall_cons_iff in H as [HA H].
      apply Forall_cons_iff in H as [HB _]. split; assumption.
    + intros [HA HB]. repeat constructor; assumption.
Qed.

(** C4. A valid condition on an attribute that the context lacks
    evaluates without error to a non-match that negation inverts: false
    when [Negate] is unset, true when it is set. *)
Theorem C4_evaluate_missing_attribute (c : Condition) (ctx : Context) :
  Condition_Validate c = None ->
  ctx !! Attribute c = None ->
  evaluate c ctx = (Negate c, None).
Proof.
  intros Hvalid Habsent. unfold evaluate, Get.
  rewrite Hvalid, Habsent. unfold applyNegate.
  destruct (Negate c); reflexivity.
Qed.

(** ** Validation *)

Lemma IsValid_recognized (o : Operator) : IsValid o = true <-> In o recognizedOperators.
Proof.
  unfold IsValid. rewrite existsb_exists. split.
  - intros [x [Hin Heq]]. apply String.eqb_eq in Heq. subst. exact Hin.
  - intros Hin. exists o. split; [exact Hin | apply String.eqb_refl].
Qed.

Lemma Condition_Validate_valid (c : Condition) :
  Condition_Validate c = None <-> condition_valid c.
Proof.
  unfold Condition_Validate, condition_valid.
  destruct (String.eqb_spec (Attribute c) "") as [Heq | Hne].
  - split; [discriminate | intros [H _]; contradiction].
  - rewrite <- IsValid_recognized.
    destruct (IsValid (Operator_ c)); cbn [negb].
    + split; [intros _; split; [exact Hne | reflexivity] | reflexivity].
    + split; [discriminate | intros [_ H]; discriminate].
Qed.

Lemma validateConditions_valid (cs : list Condition) :
  validateConditions cs = None <-> Forall condition_valid cs.
Proof.
  induction cs as [|c cs IH]; cbn [validateConditions].
  - split; [constructor | reflexivity].
  - rewrite Forall_cons_iff, <- IH, <- Condition_Validate_valid.
    destruct (Condition_Validate c).
    + split; [discriminate | intros [H _]; discriminate].
    + split; [intros H; split; [reflexivity | exact H] | intros [_ H]; exact H].
Qed.

Lemma totalWeight_bounds (vs : list Variant) :
  Forall (fun v => 0 <= Weight v <= 100) vs ->
  0 <= totalWeight vs <= 100 * Z.of_nat (length vs).
Proof.
  induction 1 as [|v vs Hv _ IH].
  - cbn. lia.
  - rewrite totalWeight_cons. cbn [length]. lia.
Qed.

Lemma variant_valid_weight (vs : list Variant) :
  Forall variant_valid vs -> Forall (fun v => 0 <= Weight v <= 100) vs.
Proof.
  intros Hvs. eapply Forall_impl; [exact Hvs |].
  intros v [H _]. exact H.
Qed.

(** The loop over the variants accepts exactly the valid variants, and
    then leaves the sum of their weights, provided the sum fits. *)
Lemma validateVariants_inr (vs : list Variant) (acc t : Z) :
  0 <= acc -> acc + 100 * Z.of_nat (length vs) <= maxInt64 ->
  validateVariants vs acc = inr t ->
  Forall variant_valid vs /\ t = acc + totalWeight vs.
Proof.
  revert acc. induction vs as [|v vs IH]; intros acc Hacc Hfit; cbn [validateVariants].
  - intros [= <-]. split; [constructor | cbn; lia].
  - cbn [length] in Hfit.
    destruct (Z.ltb_spec (Weight v) 0); cbn [orb]; [discriminate |].
    destruct (Z.gtb_spec (Weight v) 100); [discriminate |].
    destruct (validateConditions (Variant_Conditions v)) eqn:Hcs; [discriminate |].
    unfold minInt64, maxInt64 in *.
    rewrite int_add_id by (unfold minInt64, maxInt64; lia).
    intros Hrest. apply IH in Hrest as [Hvs ->]; [| lia | lia].
    split.
    + constructor; [| exact Hvs]. split; [lia |].
      apply validateConditions_valid, Hcs.
    + rewrite totalWeight_cons. lia.
Qed.

Lemma validateVariants_valid (vs : list Variant) (acc : Z) :
  0 <= acc -> acc + 100 * Z.of_nat (length vs) <= maxInt64 ->
  Forall variant_valid vs ->
  validateVariants vs acc = inr (acc + totalWeight vs).
Proof.
  intros Hacc Hfit Hvs. revert acc Hacc Hfit.
  induction Hvs as [|v vs [Hw Hcs] _ IH]; intros acc Hacc Hfit; cbn [validateVariants].
  - f_equal. cbn. lia.
  - cbn [length] in Hfit.
    destruct (Z.ltb_spec (Weight v) 0); [lia |].
    destruct (Z.gtb_spec (Weight v) 100); [lia |]. cbn [orb].
    apply validateConditions_valid in Hcs. rewrite Hcs.
    unfold maxInt64 in *.
    rewrite int_add_id by (unfold minInt64, maxInt64; lia).
    rewrite IH by lia. f_equal. rewrite totalWeight_cons. lia.
Qed.

Lemma representable_fits (f : Flag) :
  representable f -> 0 + 100 * Z.of_nat (length (Variants f)) <= maxInt64.
Proof. unfold representable, maxInt64. lia. Qed.

(** [Flag.Validate] accepts exactly the valid flags. *)
Lemma Flag_Validate_valid (f : Flag) :
  representable f -> (Flag_Validate f = None <-> flag_valid f).
Proof.
  intros Hrep. pose proof (representable_fits f Hrep) as Hfit.
  unfold Flag_Validate, flag_valid.
  destruct (String.eqb_spec (Name f) "") as [Hname | Hname].
  { split; [discriminate | intros [H _]; contradiction]. }
  destruct (Z.ltb_spec (Rollout f) 0); cbn [orb].
  { split; [discriminate | lia]. }
  destruct (Z.gtb_spec (Rollout f) 100).
  { split; [discriminate | lia]. }
  destruct (validateConditions (Conditions f)) eqn:Hcs.
  { split; [discriminate |]. intros (_ & _ & H' & _).
    apply validateConditions_valid in H'. congruence. }
  apply validateConditions_valid in Hcs.
  destruct (validateVariants (Variants f) 0) as [err | t] eqn:Hvs.
  - split; [discriminate |]. intros (_ & _ & _ & H' & _).
    rewrite (validateVariants_valid _ 0) in Hvs by (lia || assumption).
    discriminate.
  - apply validateVariants_inr in Hvs as [Hvalid ->]; [| lia | exact Hfit].
    rewrite Z.add_0_l.
    destruct (Nat.ltb_spec 0 (length (Variants f))) as [Hlen | Hlen]; cbn [andb].
    + destruct (Z.gtb_spec (totalWeight (Variants f)) 100).
      * split; [discriminate | lia].
      * split; [intros _; repeat split; (assumption || lia) | reflexivity].
    + split; [intros _ | reflexivity].
      repeat split; try (assumption || lia).
      destruct (Variants f); [cbn; lia | cbn [length] in Hlen; lia].
Qed.

(** ** The registry *)

(** C5. [AddFlag] rejects exactly the flags that break the validity
    predicate (empty name, rollout outside [0,100], a malformed condition
    at flag or variant level, a variant weight outside [0,100], weights
    summing above 100), and then returns the error and leaves the registry
    as it was, flag count included; so it does for a flag whose rollout is
    150.  A valid flag is inserted under its name, replacing any flag of
    that name. *)
Theorem C5_AddFlag_validates (flag : Flag) (s : Store) :
  representable flag ->
  (Flag_Validate flag = None <-> flag_valid flag) /\
  (~ flag_valid flag ->
     exists err, AddFlag flag s = (Ok (Some err), s)) /\
  (Rollout flag = 150 ->
     exists err, fst (AddFlag flag s) = Ok (Some err) /\
                 snd (AddFlag flag s) = s /\
                 fst (Size (snd (AddFlag flag s))) = fst (Size s)) /\
  (flag_valid flag ->
     AddFlag flag s = (Ok None, set_flags (<[Name flag := flag]> (flags s)) s) /\
     flags (snd (AddFlag flag s)) !! Name flag = Some flag /\
     forall other, other <> Name flag ->
       flags (snd (AddFlag flag s)) !! other = flags s !! other).
Proof.
  intros Hrep. pose proof (Flag_Validate_valid flag Hrep) as Hiff.
  split; [exact Hiff |].
  assert (Hreject : ~ flag_valid flag ->
                    exists err, AddFlag flag s = (Ok (Some err), s)).
  { intros Hinvalid. unfold AddFlag.
    destruct (Flag_Validate flag) as [err|] eqn:E.
    - exists err. reflexivity.
    - exfalso. apply Hinvalid, Hiff. reflexivity. }
  split; [exact Hreject | split].
  - intros H150.
    destruct Hreject as [err Herr].
    { unfold flag_valid. lia. }
    exists err. rewrite Herr. repeat split.
  - intros Hvalid. apply Hiff in Hvalid.
    unfold AddFlag. rewrite Hvalid. unfold bind, modify, ret. cbn [fst snd].
    split; [reflexivity | split].
    + cbn [flags set_flags]. apply lookup_insert_eq.
    + intros other Hother. cbn [flags set_flags].
      apply lookup_insert_ne. congruence.
Qed.

(** *** Methods that only read the store *)

Lemma readonly_ret {A : Type} (a : A) : readonly (ret a).
Proof. intros s. reflexivity. Qed.

Lemma readonly_gets {A : Type} (f : Store -> A) : readonly (gets f).
Proof. intros s. reflexivity. Qed.

Lemma readonly_lift {A : Type} (o : outcome A) : readonly (lift o).
Proof. intros s. reflexivity. Qed.

Lemma readonly_panic {A : Type} (p : PanicKind) : readonly (@panic _ A p).
Proof. intros s. reflexivity. Qed.

Lemma readonly_bind {A B : Type} (m : M A) (k : A -> M B) :
  readonly m -> (forall a, readonly (k a)) -> readonly (bind m k).
Proof.
  intros Hm Hk s. unfold bind. specialize (Hm s).
  destruct (m s) as [[a | p] s']; cbn [snd] in *; subst s'.
  - apply Hk.
  - reflexivity.
Qed.

Create HintDb readonly.
#[local] Hint Resolve readonly_ret readonly_gets readonly_lift readonly_panic : readonly.

Ltac readonly_step :=
  match goal with
  | |- readonly (bind _ _) => apply readonly_bind; [| intros ?]
  | |- readonly (match ?x with _ => _ end) => destruct x
  | |- readonly (if ?b then _ else _) => destruct b
  | |- readonly _ => solve [auto with readonly]
  end.

Lemma GetFlag_readonly (name : string) : readonly (GetFlag name).
Proof. unfold GetFlag. repeat readonly_step. Qed.

Lemma IsEnabledWithError_readonly (name : string) (ctx : Context) :
  readonly (IsEnabledWithError name ctx).
Proof.
  unfold IsEnabledWithError.
  apply readonly_bind; [apply GetFlag_readonly | intros ?].
  repeat readonly_step.
Qed.

Lemma IsEnabled_readonly (name : string) (ctx : Context) :
  readonly (IsEnabled name ctx).
Proof.
  unfold IsEnabled.
  apply readonly_bind; [apply IsEnabledWithError_readonly | intros ?].
  repeat readonly_step.
Qed.

Lemma GetVariantWithError_readonly (name : string) (ctx : Context) :
  readonly (GetVariantWithError name ctx).
Proof.
  unfold GetVariantWithError.
  apply readonly_bind; [apply GetFlag_readonly | intros ?].
  repeat readonly_step.
Qed.

Lemma Store_GetVariant_readonly (name : string) (ctx : Context) :
  readonly (Store_GetVariant name ctx).
Proof.
  unfold Store_GetVariant.
  apply readonly_bind; [apply GetVariantWithError_readonly | intros ?].
  repeat readonly_step.
Qed.

(** *** What the error-returning forms return with an error *)

Lemma GetFlag_run (name : string) (s : Store) :
  GetFlag name s
  = (Ok match flags s !! name with
        | None => (None, Some ErrFlagNotFound)
        | Some flag => (Some flag, None)
        end, s).
Proof. unfold GetFlag, bind, gets, ret. destruct (flags s !! name); reflexivity. Qed.

Ltac run_monad :=
  unfold bind, ret, gets, lift, panic in *; cbn [fst snd] in *.

Lemma IsEnabledWithError_error (name : string) (ctx : Context) (s : Store)
    (b : bool) (err : Error) :
  fst (IsEnabledWithError name ctx s) = Ok (b, Some err) -> b = false.
Proof.
  unfold IsEnabledWithError. unfold bind at 1. rewrite GetFlag_run.
  destruct (flags s !! name) as [flag|]; run_monad; [| congruence].
  destruct (negb (Enabled flag)); cbn [fst]; [congruence |].
  destruct (HasVariants flag); cbn [fst]; [congruence |].
  destruct (evaluateAll (Conditions flag) ctx) as [[|] [e|]]; cbn [fst];
    try congruence.
  destruct (ShouldRollout (rolloutStrategy s) flag ctx) as [[r [e|]] | p];
    cbn [fst]; congruence.
Qed.

Lemma findVariant_error (vs : list Variant) (n : string) (flag : Flag)
    (ctx : Context) (v : string) (en : bool) (err : Error) :
  findVariant vs n flag ctx = Some (v, en, Some err) -> v = "" /\ en = false.
Proof.
  induction vs as [|w vs IH]; cbn [findVariant]; [discriminate |].
  destruct (String.eqb (Variant_Name w) n); [| exact IH].
  destruct (0 <? length (Variant_Conditions w))%nat; [| congruence].
  destruct (evaluateAll (Variant_Conditions w) ctx) as [[|] [e|]];
    intros [= <- <- _] || discriminate; split; reflexivity.
Qed.

Lemma GetVariantWithError_error (name : string) (ctx : Context) (s : Store)
    (v : string) (en : bool) (err : Error) :
  fst (GetVariantWithError name ctx s) = Ok (v, en, Some err) ->
  v = "" /\ en = false.
Proof.
  unfold GetVariantWithError. unfold bind at 1. rewrite GetFlag_run.
  destruct (flags s !! name) as [flag|]; run_monad;
    [| intros [= <- <- _]; split; reflexivity].
  destruct (negb (Enabled flag)); cbn [fst]; [congruence |].
  destruct (evaluateAll (Conditions flag) ctx) as [[|] [e|]]; cbn [fst];
    try congruence; try (intros [= <- <- _]; split; reflexivity).
  destruct (negb (HasVariants flag)).
  - destruct (ShouldRollout (rolloutStrategy s) flag ctx) as [[r [e|]] | p];
      cbn [fst]; try congruence.
    + intros [= <- <- _]; split; reflexivity.
    + destruct r; cbn [fst]; congruence.
  - destruct (GetVariant (rolloutStrategy s) flag ctx) as [[n [e|]] | p];
      cbn [fst]; try congruence.
    + intros [= <- <- _]; split; reflexivity.
    + destruct (findVariant (Variants flag) n flag ctx) as [[[v' en'] e']|] eqn:E;
        cbn [fst]; [| congruence].
      intros [= -> -> ->]. apply (findVariant_error _ _ _ _ _ _ _ E).
Qed.

(** C6 (as the code has it).  Where an error-returning form fails, with
    the flag missing or with an evaluation error, the convenience form
    drops the error: [IsEnabled] returns false, and [GetVariant] returns
    the empty variant name with enabled=false. *)
Theorem C6_convenience_forms_fail_safe (name : string) (ctx : Context) (s : Store) :
  (forall b err,
     fst (IsEnabledWithError name ctx s) = Ok (b, Some err) ->
     fst (IsEnabled name ctx s) = Ok false) /\
  (forall v en err,
     fst (GetVariantWithError name ctx s) = Ok (v, en, Some err) ->
     fst (Store_GetVariant name ctx s) = Ok ("", false)) /\
  (flags s !! name = None ->
     fst (IsEnabledWithError name ctx s) = Ok (false, Some ErrFlagNotFound) /\
     fst (GetVariantWithError name ctx s) = Ok ("", false, Some ErrFlagNotFound)).
Proof.
  split; [| split].
  - intros b err H. pose proof (IsEnabledWithError_error _ _ _ _ _ H) as ->.
    unfold IsEnabled, bind.
    destruct (IsEnabledWithError name ctx s) as [[r | p] s']; cbn [fst] in H.
    + injection H as ->. reflexivity.
    + discriminate.
  - intros v en err H.
    destruct (GetVariantWithError_error _ _ _ _ _ _ H) as [-> ->].
    unfold Store_GetVariant, bind.
    destruct (GetVariantWithError name ctx s) as [[r | p] s']; cbn [fst] in H.
    + injection H as ->. reflexivity.
    + discriminate.
  - intros Habsent. split.
    + unfold IsEnabledWithError. unfold bind at 1.
      rewrite GetFlag_run, Habsent. reflexivity.
    + unfold GetVariantWithError. unfold bind at 1.
      rewrite GetFlag_run, Habsent. reflexivity.
Qed.

(** *** Variant selection in the store *)

(** Without overflow no cumulative weight exceeds the total weight. *)
Lemma cumulativeWeightFrom_le_total (vs : list Variant) (c : Z) (i : nat) :
  Forall (fun v => 0 <= Weight v <= 100) vs ->
  0 <= c -> c + 100 * Z.of_nat (length vs) <= maxInt64 ->
  (i < length vs)%nat ->
  cumulativeWeightFrom c vs i <= c + totalWeight vs.
Proof.
  intros Hvs. revert c i.
  induction Hvs as [|v vs Hv Hvs IH]; intros c i Hc Hfit Hi; cbn [length] in *.
  - lia.
  - pose proof (totalWeight_bounds vs Hvs) as Htot.
    rewrite totalWeight_cons.
    assert (Hadd : int_add c (Weight v) = c + Weight v).
    { apply int_add_id. unfold minInt64, maxInt64 in *. lia. }
    destruct i as [|i].
    + rewrite cumulativeWeightFrom_head, Hadd. lia.
    + rewrite cumulativeWeightFrom_tail, Hadd.
      etransitivity; [apply IH; lia |]. lia.
Qed.

Lemma findVariant_absent (vs : list Variant) (n : string) (flag : Flag) (ctx : Context) :
  Forall (fun v => Variant_Name v <> n) vs ->
  findVariant vs n flag ctx = None.
Proof.
  induction 1 as [|v vs Hv _ IH]; cbn [findVariant]; [reflexivity |].
  destruct (String.eqb_spec (Variant_Name v) n); [contradiction | exact IH].
Qed.

(** The lookup stops at the first variant that bears the name. *)
Lemma findVariant_first (pre post : list Variant) (v : Variant) (n : string)
    (flag : Flag) (ctx : Context) :
  Forall (fun w => Variant_Name w <> n) pre ->
  Variant_Name v = n ->
  findVariant (pre ++ v :: post)%list n flag ctx
  = if (0 <? length (Variant_Conditions v))%nat then
      match evaluateAll (Variant_Conditions v) ctx with
      | (_, Some err) => Some ("", false, Some err)
      | (false, None) => Some (DefaultVariant flag, false, None)
      | (true, None) => Some (Variant_Name v, true, None)
      end
    else Some (Variant_Name v, true, None).
Proof.
  intros Hpre Hv. induction Hpre as [|w pre Hw _ IH]; cbn [app findVariant].
  - rewrite Hv, String.eqb_refl. reflexivity.
  - destruct (String.eqb_spec (Variant_Name w) n); [contradiction | exact IH].
Qed.

(** What [GetVariantWithError] does once the flag is found, enabled, its
    conditions hold and the strategy has answered [n] for a flag with
    variants. *)
Lemma GetVariantWithError_selected (name : string) (ctx : Context) (s : Store)
    (flag : Flag) (n : string) :
  flags s !! name = Some flag ->
  Enabled flag = true ->
  Variants flag <> [] ->
  evaluateAll (Conditions flag) ctx = (true, None) ->
  GetVariant (rolloutStrategy s) flag ctx = Ok (n, None) ->
  fst (GetVariantWithError name ctx s)
  = Ok match findVariant (Variants flag) n flag ctx with
       | Some result => result
       | None => (DefaultVariant flag, false, None)
       end.
Proof.
  intros Hflag Hen Hvs Hcond Hsel.
  unfold GetVariantWithError. unfold bind at 1. rewrite GetFlag_run, Hflag.
  rewrite Hen, Hcond. cbn [negb]. unfold HasVariants.
  destruct (Variants flag) as [|v vs] eqn:E; [congruence |].
  cbn [length Nat.ltb Nat.leb negb]. run_monad. rewrite <- E, Hsel.
  destruct (findVariant (Variants flag) n flag ctx); reflexivity.
Qed.

Lemma Store_GetVariant_run (name : string) (ctx : Context) (s : Store)
    (v : string) (en : bool) (err : option Error) :
  fst (GetVariantWithError name ctx s) = Ok (v, en, err) ->
  fst (Store_GetVariant name ctx s) = Ok (v, en).
Proof.
  unfold Store_GetVariant, bind.
  destruct (GetVariantWithError name ctx s) as [[r | p] s']; cbn [fst].
  - intros [= ->]. reflexivity.
  - discriminate.
Qed.

(** The three results of [evaluateAll]: an error comes with [false]. *)
Lemma evaluateAll_results (cs : list Condition) (ctx : Context) :
  evaluateAll cs ctx = (true, None) \/
  evaluateAll cs ctx = (false, None) \/
  exists err, evaluateAll cs ctx = (false, Some err).
Proof.
  induction cs as [|c cs IH]; cbn [evaluateAll].
  - left. reflexivity.
  - destruct (evaluate c ctx) as [[|] [err|]]; eauto.
Qed.

(** C7 (as the code has it).  For an enabled, valid flag with variants
    whose weights sum to less than 100, a context that holds the rollout
    key and satisfies the flag's conditions, and a bucket at or above the
    total weight, the deterministic-hash strategy answers the default
    variant's name, and the store looks that name up among the variants:
    it returns (DefaultVariant, false) when no variant bears the name or
    when the first variant that bears it has conditions that do not hold,
    (DefaultVariant, true) when that variant's conditions hold, and
    ("", false) when evaluating that variant's conditions gives an error,
    which [GetVariantWithError] returns with the empty name.  The
    evaluation has no fourth result, so the cases cover every such call. *)
Theorem C7_unallocated_bucket_falls_to_default
    (name : string) (ctx : Context) (s : Store) (flag : Flag) (keyValue : Value) :
  rolloutStrategy s = DefaultStrategy (NewDefaultRolloutStrategy None) ->
  flags s !! name = Some flag ->
  flag_valid flag -> representable flag ->
  Enabled flag = true ->
  Variants flag <> [] ->
  totalWeight (Variants flag) < 100 ->
  ctx !! GetRolloutKey flag = Some keyValue ->
  evaluateAll (Conditions flag) ctx = (true, None) ->
  totalWeight (Variants flag)
    <= hash.FNVHasher_Hash (Name flag +:+ ":variant:" +:+ Sprint keyValue) ->
  GetVariant (rolloutStrategy s) flag ctx = Ok (DefaultVariant flag, None) /\
  (Forall (fun v => Variant_Name v <> DefaultVariant flag) (Variants flag) ->
     fst (Store_GetVariant name ctx s) = Ok (DefaultVariant flag, false)) /\
  (forall (pre post : list Variant) (v : Variant),
     Variants flag = (pre ++ v :: post)%list ->
     Forall (fun w => Variant_Name w <> DefaultVariant flag) pre ->
     Variant_Name v = DefaultVariant flag ->
     (evaluateAll (Variant_Conditions v) ctx = (true, None) ->
        fst (Store_GetVariant name ctx s) = Ok (DefaultVariant flag, true)) /\
     (evaluateAll (Variant_Conditions v) ctx = (false, None) ->
        fst (Store_GetVariant name ctx s) = Ok (DefaultVariant flag, false)) /\
     (forall (b : bool) (err : Error),
        evaluateAll (Variant_Conditions v) ctx = (b, Some err) ->
        fst (GetVariantWithError name ctx s) = Ok ("", false, Some err) /\
        fst (Store_GetVariant name ctx s) = Ok ("", false)) /\
     (evaluateAll (Variant_Conditions v) ctx = (true, None) \/
      evaluateAll (Variant_Conditions v) ctx = (false, None) \/
      exists err, evaluateAll (Variant_Conditions v) ctx = (false, Some err))).
Proof.
  intros Hstrat Hflag Hvalid Hrep Hen Hvs Hsum Hkey Hcond Hbucket.
  destruct Hvalid as (_ & _ & _ & Hvars & _).
  apply variant_valid_weight in Hvars.
  assert (Hsel : GetVariant (rolloutStrategy s) flag ctx
                 = Ok (DefaultVariant flag, None)).
  { rewrite Hstrat. unfold DefaultStrategy, Default_GetVariant, Get.
    cbn [GetVariant NewDefaultRolloutStrategy hasher hash.NewFNV hash.Hash].
    rewrite Hkey. destruct (negb (HasVariants flag)); [reflexivity |].
    rewrite selectByWeight_none; [reflexivity |].
    intros i Hi.
    pose proof (cumulativeWeightFrom_le_total (Variants flag) 0 i Hvars
                  ltac:(lia) (representable_fits flag Hrep) Hi).
    lia. }
  pose proof (GetVariantWithError_selected name ctx s flag _
                Hflag Hen Hvs Hcond Hsel) as Hrun.
  split; [exact Hsel | split].
  - intros Hnone. rewrite (findVariant_absent _ _ _ _ Hnone) in Hrun.
    apply (Store_GetVariant_run _ _ _ _ _ _ Hrun).
  - intros pre post v Hsplit Hpre Hv.
    rewrite Hsplit, (findVariant_first pre post v _ flag ctx Hpre Hv) in Hrun.
    split; [| split; [| split]].
    + intros Hvc. rewrite Hvc, Hv in Hrun.
      destruct (0 <? length (Variant_Conditions v))%nat;
        apply (Store_GetVariant_run _ _ _ _ _ _ Hrun).
    + intros Hvc. rewrite Hvc in Hrun.
      destruct (Variant_Conditions v) as [|c cs]; [discriminate Hvc |].
      cbn [length Nat.ltb Nat.leb] in Hrun.
      apply (Store_GetVariant_run _ _ _ _ _ _ Hrun).
    + intros b err Hvc. rewrite Hvc in Hrun.
      destruct (Variant_Conditions v) as [|c cs]; [discriminate Hvc |].
      cbn [length Nat.ltb Nat.leb] in Hrun. destruct b.
      all: split; [exact Hrun | apply (Store_GetVariant_run _ _ _ _ _ _ Hrun)].
    + apply evaluateAll_results.
Qed.

(** ** The switchback strategy *)

Lemma Time_Sub_Add (t : Time) (d : Duration) :
  minInt64 <= d <= maxInt64 -> Time_Sub (Time_Add t d) t = d.
Proof.
  intros Hd. unfold Time_Sub, Time_Add.
  replace (t + d - t) with d by lia.
  destruct (Z.ltb_spec d minInt64); [lia |].
  destruct (Z.gtb_spec d maxInt64); [lia | reflexivity].
Qed.

Lemma Time_Sub_self (t : Time) : Time_Sub t t = 0.
Proof. unfold Time_Sub. rewrite Z.sub_diag. reflexivity. Qed.

Lemma Time_Sub_nonneg (t u : Time) : u <= t -> 0 <= Time_Sub t u <= maxInt64.
Proof.
  intros H. unfold Time_Sub.
  destruct (Z.ltb_spec (t - u) minInt64); [unfold minInt64 in *; lia |].
  destruct (Z.gtb_spec (t - u) maxInt64); unfold maxInt64 in *; lia.
Qed.

Lemma Time_Sub_neg (t u : Time) : t < u -> minInt64 <= Time_Sub t u < 0.
Proof.
  intros H. unfold Time_Sub.
  destruct (Z.ltb_spec (t - u) minInt64); [unfold minInt64 in *; lia |].
  destruct (Z.gtb_spec (t - u) maxInt64); unfold maxInt64, minInt64 in *; lia.
Qed.

Lemma quot_nonneg_bounds (a b : Z) : 0 <= a -> 0 < b -> 0 <= a ÷ b <= a.
Proof.
  intros Ha Hb. rewrite Z.quot_div_nonneg by lia. split.
  - apply Z.div_pos; lia.
  - apply Z.div_le_upper_bound; nia.
Qed.

Lemma quot_nonpos_bounds (a b : Z) : a <= 0 -> 0 < b -> a <= a ÷ b <= 0.
Proof.
  intros Ha Hb.
  replace a with (- - a) at 2 3 by lia.
  rewrite Z.quot_opp_l by lia.
  pose proof (quot_nonneg_bounds (- a) b ltac:(lia) Hb). lia.
Qed.

Lemma rem_nonpos_bounds (a b : Z) : a <= 0 -> 0 < b -> - b < Z.rem a b <= 0.
Proof.
  intros Ha Hb.
  replace a with (- - a) by lia.
  rewrite Z.rem_opp_l by lia.
  pose proof (Z.rem_bound_pos (- a) b ltac:(lia) Hb). lia.
Qed.

Lemma index_slice_in_range {A : Type} (l : list A) (i : Z) :
  0 <= i < Z.of_nat (length l) ->
  exists x, l !! Z.to_nat i = Some x /\ index_slice l i = Ok x.
Proof.
  intros Hi. unfold index_slice.
  destruct (Z.leb_spec 0 i); [| lia].
  destruct (Z.ltb_spec i (Z.of_nat (length l))); [| lia]. cbn [andb].
  destruct (lookup_lt_is_Some_2 l (Z.to_nat i) ltac:(lia)) as [x Hx].
  exists x. rewrite Hx. split; reflexivity.
Qed.

Lemma index_slice_negative {A : Type} (l : list A) (i : Z) :
  i < 0 -> index_slice l i = Panic (IndexOutOfRange i (length l)).
Proof.
  intros Hi. unfold index_slice.
  destruct (Z.leb_spec 0 i); [lia | reflexivity].
Qed.

(** C8. With 30-minute intervals from [T0] and the two variants [a, b]:
    without the daily swap [GetVariant] yields [a] at [T0], [b] at
    [T0+30m] and [a] again at [T0+60m]; with the daily swap it yields [b]
    at [T0+24h], which is interval 48, the first of day 1. *)
Theorem C8_switchback_schedule (timeNow : unit -> Time) (T0 : Time)
    (flag : Flag) (a b : Variant) (ctx : Context) :
  Variants flag = [a; b] ->
  let switchback := fun (swap : bool) (now : Time) =>
    set_timeProvider (fun _ => now)
      (NewSwitchbackRolloutStrategy timeNow
         [WithIntervalMinutes 30; WithStartTime T0; WithDailySwap swap]) in
  let strategy := fun swap now => SwitchbackStrategy (switchback swap now) in
  GetVariant (strategy false T0) flag ctx = Ok (Variant_Name a, None) /\
  GetVariant (strategy false (Time_Add T0 (30 * Minute))) flag ctx
    = Ok (Variant_Name b, None) /\
  GetVariant (strategy false (Time_Add T0 (60 * Minute))) flag ctx
    = Ok (Variant_Name a, None) /\
  GetVariant (strategy true (Time_Add T0 (24 * Hour))) flag ctx
    = Ok (Variant_Name b, None) /\
  GetCurrentInterval (switchback true (Time_Add T0 (24 * Hour))) = Ok 48 /\
  GetCurrentDay (switchback true (Time_Add T0 (24 * Hour))) = 1.
Proof.
  intros Hvs. cbn zeta.
  unfold SwitchbackStrategy, Switchback_GetVariant, GetCurrentInterval,
    GetCurrentDay, HasVariants, NewSwitchbackRolloutStrategy, set_timeProvider,
    WithIntervalMinutes, WithStartTime, WithDailySwap.
  cbn [GetVariant fold_left baseStrategy intervalMinutes startTime swapDaily
       timeProvider].
  rewrite Hvs, Time_Sub_self, !Time_Sub_Add by (vm_compute; split; discriminate).
  repeat split.
Qed.

Lemma interval_duration_positive (s : SwitchbackRolloutStrategy) :
  0 < intervalMinutes s -> intervalMinutes s * Minute <= maxInt64 ->
  int_mul (intervalMinutes s) Minute = intervalMinutes s * Minute /\
  0 < intervalMinutes s * Minute.
Proof.
  intros Hpos Hfit. unfold int_mul. unfold Minute in *.
  rewrite wrap64_id by (unfold minInt64; lia). lia.
Qed.

(** [GetVariant] of the switchback strategy on both sides of the start
    time, for a positive interval whose duration fits an [int64].  From
    the start time on, the current interval is non-negative and the index
    that selects from [flag.Variants] is in range, so the variant at that
    index is returned.  Before the start time nothing is checked: the
    interval number is at most zero (the division truncates toward zero),
    the odd-day swap never applies, and the remainder that indexes the
    slice is zero or negative. *)
Lemma Switchback_GetVariant_index
    (s : SwitchbackRolloutStrategy) (flag : Flag) (ctx : Context) :
  let now := timeProvider s tt in
  let n := Z.of_nat (length (Variants flag)) in
  0 < intervalMinutes s ->
  intervalMinutes s * Minute <= maxInt64 ->
  Variants flag <> [] ->
  representable flag ->
  (startTime s <= now ->
     exists interval v,
       GetCurrentInterval s = Ok interval /\ 0 <= interval /\
       let index :=
         if swapDaily s && (Z.rem (GetCurrentDay s) 2 =? 1)
         then n - 1 - Z.rem interval n
         else Z.rem interval n in
       0 <= index < n /\
       Variants flag !! Z.to_nat index = Some v /\
       Switchback_GetVariant s flag ctx = Ok (Variant_Name v, None)) /\
  (now < startTime s ->
     exists interval,
       GetCurrentInterval s = Ok interval /\ interval <= 0 /\
       (Z.rem interval n = 0 ->
          exists v, Variants flag !! 0%nat = Some v /\
                    Switchback_GetVariant s flag ctx = Ok (Variant_Name v, None)) /\
       (Z.rem interval n <> 0 ->
          Z.rem interval n < 0 /\
          Switchback_GetVariant s flag ctx
          = Panic (IndexOutOfRange (Z.rem interval n) (length (Variants flag))))).
Proof.
  cbn zeta. intros Hpos Hfit Hvs Hrep.
  destruct (interval_duration_positive s Hpos Hfit) as [Hdur Hdpos].
  assert (Hn : 0 < Z.of_nat (length (Variants flag))).
  { destruct (Variants flag); [congruence | cbn [length]; lia]. }
  assert (Hhas : HasVariants flag = true).
  { unfold HasVariants. apply Nat.ltb_lt. lia. }
  unfold representable in Hrep.
  unfold Switchback_GetVariant, GetCurrentInterval, GetCurrentDay, int_quo, int_rem.
  rewrite Hhas, Hdur. cbn [negb].
  destruct (Z.eqb_spec (intervalMinutes s * Minute) 0) as [|_]; [lia |].
  destruct (Z.eqb_spec (Z.of_nat (length (Variants flag))) 0) as [|_]; [lia |].
  cbn [obind].
  set (elapsed := Time_Sub (timeProvider s tt) (startTime s)).
  set (d := intervalMinutes s * Minute) in *.
  set (n := Z.of_nat (length (Variants flag))) in *.
  split.
  - intros Hnow.
    pose proof (Time_Sub_nonneg _ _ Hnow) as Hel. fold elapsed in Hel.
    pose proof (quot_nonneg_bounds elapsed d ltac:(lia) Hdpos) as Hq.
    rewrite (wrap64_id (elapsed ÷ d)) by (unfold minInt64; lia).
    pose proof (Z.rem_bound_pos (elapsed ÷ d) n ltac:(lia) Hn) as Hr.
    set (index := if swapDaily s && (Z.rem (wrap64 (elapsed ÷ (24 * Hour))) 2 =? 1)
                  then n - 1 - Z.rem (elapsed ÷ d) n
                  else Z.rem (elapsed ÷ d) n).
    assert (Hidx : 0 <= index < n).
    { subst index. destruct (swapDaily s && _); lia. }
    assert (Hcode : (if swapDaily s && (Z.rem (wrap64 (elapsed ÷ (24 * Hour))) 2 =? 1)
                     then int_sub (int_sub n 1) (Z.rem (elapsed ÷ d) n)
                     else Z.rem (elapsed ÷ d) n) = index).
    { subst index. destruct (swapDaily s && _); [| reflexivity].
      unfold int_sub at 2. rewrite (wrap64_id (n - 1)) by (unfold minInt64, maxInt64; lia).
      apply int_sub_id. unfold minInt64, maxInt64. lia. }
    rewrite Hcode.
    destruct (index_slice_in_range (Variants flag) index Hidx) as [v [Hv Hslice]].
    exists (elapsed ÷ d), v. rewrite Hslice. cbn [obind].
    repeat split; try assumption; lia.
  - intros Hnow.
    pose proof (Time_Sub_neg _ _ Hnow) as Hel. fold elapsed in Hel.
    pose proof (quot_nonpos_bounds elapsed d ltac:(lia) Hdpos) as Hq.
    rewrite (wrap64_id (elapsed ÷ d)) by (unfold maxInt64; lia).
    pose proof (rem_nonpos_bounds (elapsed ÷ d) n ltac:(lia) Hn) as Hr.
    pose proof (quot_nonpos_bounds elapsed (24 * Hour) ltac:(lia) ltac:(reflexivity)) as Hday.
    rewrite (wrap64_id (elapsed ÷ (24 * Hour))) by (unfold maxInt64; lia).
    pose proof (rem_nonpos_bounds (elapsed ÷ (24 * Hour)) 2 ltac:(lia) ltac:(lia)) as Hr2.
    destruct (Z.eqb_spec (Z.rem (elapsed ÷ (24 * Hour)) 2) 1) as [|_]; [lia |].
    rewrite andb_false_r.
    exists (elapsed ÷ d). repeat split; try lia.
    + intros Hzero. rewrite Hzero.
      destruct (index_slice_in_range (Variants flag) 0 ltac:(lia)) as [v [Hv Hslice]].
      exists v. rewrite Hslice. split; [exact Hv | reflexivity].
    + rewrite index_slice_negative by lia. reflexivity.
Qed.

(** ** The registry invariant *)

Lemma AddFlag_preserves_valid (flag : Flag) (s : Store) :
  representable flag -> store_valid s -> store_valid (snd (AddFlag flag s)).
Proof.
  intros Hrep Hs. unfold AddFlag.
  destruct (Flag_Validate flag) eqn:E; [exact Hs |].
  apply (Flag_Validate_valid flag Hrep) in E.
  unfold bind, modify, ret. cbn [snd].
  intros name f. cbn [flags set_flags].
  destruct (decide (Name flag = name)) as [<- | Hne].
  - rewrite lookup_insert_eq. intros [= <-]. exact E.
  - rewrite lookup_insert_ne by exact Hne. apply Hs.
Qed.

Lemma AddFlag_outcome (flag : Flag) (s : Store) :
  exists err, fst (AddFlag flag s) = Ok err.
Proof.
  unfold AddFlag. destruct (Flag_Validate flag) as [e|].
  - exists (Some e). reflexivity.
  - exists None. reflexivity.
Qed.

Lemma AddFlags_preserves_valid (fs : list Flag) (s : Store) :
  Forall representable fs -> store_valid s -> store_valid (snd (AddFlags fs s)).
Proof.
  intros Hfs. revert s. induction Hfs as [|flag fs Hflag _ IH]; intros s Hs.
  - exact Hs.
  - cbn [AddFlags]. unfold bind at 1.
    pose proof (AddFlag_preserves_valid flag s Hflag Hs) as Hs'.
    destruct (AddFlag_outcome flag s) as [err Herr].
    destruct (AddFlag flag s) as [o s']; cbn [fst snd] in *. subst o.
    destruct err as [e|]; [exact Hs' | apply IH, Hs'].
Qed.

Lemma run_op_preserves_valid (o : Op) (s : Store) :
  op_representable o -> store_valid s -> store_valid (run_op o s).
Proof.
  destruct o as [flag | fs | name |]; cbn [op_representable run_op]; intros Hrep Hs.
  - apply AddFlag_preserves_valid; assumption.
  - apply AddFlags_preserves_valid; assumption.
  - intros n f. cbn. intros Hlook.
    apply lookup_delete_Some in Hlook as [_ Hlook]. apply (Hs _ _ Hlook).
  - intros n f. cbn. rewrite lookup_empty. discriminate.
Qed.

Lemma NewStore_flags (opts : list StoreOption) :
  Forall (fun opt => forall s, flags (opt s) = flags s) opts ->
  flags (NewStore opts) = ∅.
Proof.
  unfold NewStore.
  set (s0 := {| flags := ∅; rolloutStrategy := _ |}).
  assert (H0 : flags s0 = ∅) by reflexivity. revert H0.
  generalize s0. clear s0.
  induction opts as [|opt opts IH]; intros s0 H0 Hopts; cbn [fold_left].
  - exact H0.
  - apply Forall_cons_iff in Hopts as [Hopt Hopts].
    apply IH; [rewrite Hopt; exact H0 | exact Hopts].
Qed.

(** C10. Every state reachable from a fresh store by [AddFlag],
    [AddFlags], [RemoveFlag] and [Clear] holds only valid flags (non-empty
    name, rollout in [0,100], every condition at flag and variant level
    with a non-empty attribute and a recognized operator, every weight in
    [0,100], weights summing to at most 100); and the evaluation
    operations leave the store, flag map and flags, as it was. *)
Theorem C10_registry_invariant :
  (forall s, reachable s -> store_valid s) /\
  (forall q s, run_query q s = s).
Proof.
  split.
  - induction 1 as [timeNow opts | s o _ IH Hrep].
    + intros name f. rewrite NewStore_flags.
      * rewrite lookup_empty. discriminate.
      * destruct opts; repeat constructor.
    + apply run_op_preserves_valid; assumption.
  - intros [name ctx | name ctx | name ctx | name ctx | name |] s; cbn [run_query].
    + apply IsEnabled_readonly.
    + apply IsEnabledWithError_readonly.
    + apply Store_GetVariant_readonly.
    + apply GetVariantWithError_readonly.
    + apply GetFlag_readonly.
    + reflexivity.
Qed.

End Properties.

(** * The properties on the sample data *)

Section Samples.

Import Fragment Examples.

(** C1 at the half rollout: the key is present and the bucket 12 is below
    50. *)
Lemma C1_witness :
  0 < Rollout rolloutFlag < 100 /\
  user1 !! GetRolloutKey rolloutFlag = Some (VString "user-1") /\
  exists b,
    ShouldRollout (DefaultStrategy (NewDefaultRolloutStrategy None)) rolloutFlag user1
    = Ok (b, None) /\
    (b = true <->
     hash.Sum32 (Name rolloutFlag +:+ ":" +:+ Sprint (VString "user-1")) mod 100
     < Rollout rolloutFlag).
Proof.
  split; [vm_compute; split; reflexivity |].
  split; [reflexivity |].
  destruct (C1_ShouldRollout_deterministic_hash rolloutFlag user1)
    as (_ & _ & _ & H & _).
  apply (H (VString "user-1")).
  - vm_compute. split; reflexivity.
  - reflexivity.
Defined.

(** C2 on the three-variant experiment: the bucket 39 is below the first
    cumulative weight, 50. *)
Lemma C2_witness :
  GetVariant (DefaultStrategy (NewDefaultRolloutStrategy None)) abFlag user1
  = Ok ("control", None).
Proof.
  destruct (C2_GetVariant_deterministic_hash abFlag user1) as (_ & _ & H & _).
  destruct (H (VString "user-1")) as [Hfirst _].
  - discriminate.
  - reflexivity.
  - apply (Hfirst 0%nat (plainVariant "control" 50)).
    + reflexivity.
    + vm_compute. reflexivity.
    + intros j Hj. lia.
Defined.

(** C3 on two conditions whose attribute is missing, the first one
    negated. *)
Lemma C3_witness :
  evaluateAll [countryIs "US" true; countryIs "DE" false] user1
  = evaluate (countryIs "DE" false) user1.
Proof.
  destruct (C3_evaluateAll_short_circuit user1) as (_ & H & _).
  apply (H [countryIs "US" true] (countryIs "DE" false) []).
  - repeat constructor.
  - vm_compute. discriminate.
Defined.

(** C4 on a negated condition over a missing attribute. *)
Lemma C4_witness :
  Condition_Validate (countryIs "US" true) = None /\
  user1 !! Attribute (countryIs "US" true) = None /\
  evaluate (countryIs "US" true) user1 = (true, None).
Proof.
  split; [reflexivity |]. split; [reflexivity |].
  apply (C4_evaluate_missing_attribute (countryIs "US" true) user1); reflexivity.
Defined.

(** C5 on a flag whose rollout is 150. *)
Lemma C5_witness :
  representable (simpleFlag "too_wide" 150) /\
  exists err,
    fst (AddFlag (simpleFlag "too_wide" 150) (storeWith abFlag)) = Ok (Some err) /\
    snd (AddFlag (simpleFlag "too_wide" 150) (storeWith abFlag)) = storeWith abFlag /\
    fst (Size (snd (AddFlag (simpleFlag "too_wide" 150) (storeWith abFlag))))
    = fst (Size (storeWith abFlag)).
Proof.
  assert (Hrep : representable (simpleFlag "too_wide" 150))
    by (vm_compute; reflexivity).
  split; [exact Hrep |].
  destruct (C5_AddFlag_validates (simpleFlag "too_wide" 150) (storeWith abFlag) Hrep)
    as (_ & _ & H & _).
  apply H. reflexivity.
Defined.

(** C6, the claim as stated: with a pattern that does not compile the
    error-returning form fails, and [GetVariant] returns the empty name,
    not the flag's default variant ["control"]. *)
Lemma C6_counterexample :
  flags (storeWith betaFlag) !! "beta" = Some betaFlag /\
  fst (GetVariantWithError "beta" withEmail (storeWith betaFlag))
  = Ok ("", false, Some (ErrRegexpSyntax "(")) /\
  fst (Store_GetVariant "beta" withEmail (storeWith betaFlag)) = Ok ("", false) /\
  fst (Store_GetVariant "beta" withEmail (storeWith betaFlag))
  <> Ok (DefaultVariant betaFlag, false).
Proof.
  split; [reflexivity |]. split; [reflexivity |]. split; [reflexivity |].
  vm_compute. discriminate.
Defined.

Lemma C6_witness :
  fst (IsEnabled "beta" withEmail (storeWith betaFlag)) = Ok false /\
  fst (Store_GetVariant "beta" withEmail (storeWith betaFlag)) = Ok ("", false).
Proof.
  destruct (C6_convenience_forms_fail_safe "beta" withEmail (storeWith betaFlag))
    as (H1 & H2 & _).
  split.
  - apply (H1 false (ErrRegexpSyntax "(")). reflexivity.
  - apply (H2 "" false (ErrRegexpSyntax "(")). reflexivity.
Defined.

(** C7, the claim as stated: the weights sum to 80 and the bucket is 97,
    yet the store returns the default variant with enabled=true, a
    variant bearing the default variant's name. *)
Lemma C7_counterexample :
  flags (storeWith (pricingFlag "control")) !! "pricing" = Some (pricingFlag "control") /\
  Enabled (pricingFlag "control") = true /\
  user1 !! GetRolloutKey (pricingFlag "control") = Some (VString "user-1") /\
  totalWeight (Variants (pricingFlag "control")) = 80 /\
  hash.FNVHasher_Hash ("pricing" +:+ ":variant:" +:+ Sprint (VString "user-1")) = 97 /\
  evaluateAll (Conditions (pricingFlag "control")) user1 = (true, None) /\
  fst (Store_GetVariant "pricing" user1 (storeWith (pricingFlag "control")))
  = Ok ("control", true) /\
  fst (Store_GetVariant "pricing" user1 (storeWith (pricingFlag "control")))
  <> Ok (DefaultVariant (pricingFlag "control"), false).
Proof.
  repeat (split; [reflexivity |]).
  vm_compute. discriminate.
Defined.

(** C7 on two flags whose weights sum to 80, at bucket 97: no variant
    is named after the default variant of the first; the default variant
    of the second is a variant whose pattern does not compile. *)
Lemma C7_witness :
  fst (Store_GetVariant "pricing" user1 (storeWith (pricingFlag "holdout")))
  = Ok ("holdout", false) /\
  flags (storeWith guardedFlag) !! "pricing" = Some guardedFlag /\
  fst (GetVariantWithError "pricing" user1WithEmail (storeWith guardedFlag))
  = Ok ("", false, Some (ErrRegexpSyntax "(")) /\
  fst (Store_GetVariant "pricing" user1WithEmail (storeWith guardedFlag))
  = Ok ("", false).
Proof.
  assert (Hrep : representable (pricingFlag "holdout")) by (vm_compute; reflexivity).
  assert (Hrep' : representable guardedFlag) by (vm_compute; reflexivity).
  split; [| split; [reflexivity |]].
  - destruct (C7_unallocated_bucket_falls_to_default
                "pricing" user1 (storeWith (pricingFlag "holdout"))
                (pricingFlag "holdout") (VString "user-1")) as (_ & H & _).
    + reflexivity.
    + reflexivity.
    + apply (Flag_Validate_valid _ Hrep). reflexivity.
    + exact Hrep.
    + reflexivity.
    + discriminate.
    + vm_compute. reflexivity.
    + reflexivity.
    + reflexivity.
    + vm_compute. discriminate.
    + apply H. repeat constructor; discriminate.
  - destruct (C7_unallocated_bucket_falls_to_default
                "pricing" user1WithEmail (storeWith guardedFlag)
                guardedFlag (VString "user-1")) as (_ & _ & H).
    + reflexivity.
    + reflexivity.
    + apply (Flag_Validate_valid _ Hrep'). reflexivity.
    + exact Hrep'.
    + reflexivity.
    + discriminate.
    + vm_compute. reflexivity.
    + reflexivity.
    + reflexivity.
    + vm_compute. discriminate.
    + destruct (H [plainVariant "control" 50; plainVariant "treatment" 30]
                  [] guardedDefault) as (_ & _ & Herr & _).
      * reflexivity.
      * repeat constructor; discriminate.
      * reflexivity.
      * apply (Herr false (ErrRegexpSyntax "(")). reflexivity.
Defined.

(** C8 on the two-armed flag. *)
Lemma C8_witness :
  Variants twoArms = [plainVariant "A" 50; plainVariant "B" 50] /\
  GetVariant
    (SwitchbackStrategy
       (set_timeProvider (fun _ => Time_Add T0 (30 * Minute))
          (NewSwitchbackRolloutStrategy (fun _ => 0)
             [WithIntervalMinutes 30; WithStartTime T0; WithDailySwap false])))
    twoArms user1
  = Ok ("B", None).
Proof.
  split; [reflexivity |].
  destruct (C8_switchback_schedule (fun _ => 0) T0 twoArms
              (plainVariant "A" 50) (plainVariant "B" 50) user1 eq_refl)
    as (_ & H & _).
  exact H.
Defined.

(** C9, the code against the claim.  With 30-minute intervals from [T0]
    and the clock 30 minutes before [T0], the elapsed time is negative,
    the interval number is -1 and [-1 % 2] is -1: [GetVariant] indexes
    [flag.Variants] with -1, which stops the program, also when the call
    comes from [Store.GetVariant]; no error is returned.  One nanosecond
    and one hour before [T0] the interval number is 0 and -2, and
    [GetVariant] returns the first variant with a nil error. *)
Theorem C9_negative_index_before_start :
  intervalMinutes (switchbackAt (T0 - 30 * Minute)) = 30 /\
  startTime (switchbackAt (T0 - 30 * Minute)) = T0 /\
  timeProvider (switchbackAt (T0 - 30 * Minute)) tt = T0 - 30 * Minute /\
  Variants twoArms = [plainVariant "A" 50; plainVariant "B" 50] /\
  GetCurrentInterval (switchbackAt (T0 - 30 * Minute)) = Ok (-1) /\
  int_rem (-1) (Z.of_nat (length (Variants twoArms))) = Ok (-1) /\
  Switchback_GetVariant (switchbackAt (T0 - 30 * Minute)) twoArms user1
  = Panic (IndexOutOfRange (-1) 2) /\
  flags (switchbackStore (T0 - 30 * Minute)) !! "rebate" = Some twoArms /\
  fst (GetVariantWithError "rebate" user1 (switchbackStore (T0 - 30 * Minute)))
  = Panic (IndexOutOfRange (-1) 2) /\
  fst (Store_GetVariant "rebate" user1 (switchbackStore (T0 - 30 * Minute)))
  = Panic (IndexOutOfRange (-1) 2) /\
  GetCurrentInterval (switchbackAt (T0 - 1)) = Ok 0 /\
  Switchback_GetVariant (switchbackAt (T0 - 1)) twoArms user1 = Ok ("A", None) /\
  GetCurrentInterval (switchbackAt (T0 - Hour)) = Ok (-2) /\
  Switchback_GetVariant (switchbackAt (T0 - Hour)) twoArms user1 = Ok ("A", None).
Proof. repeat split. Qed.

(** The float formatting of the instance on both sides of [10^6], as
    [fmt.Sprint] prints these values. *)
Lemma format_float_samples :
  Sprint (VFloat64 0) = "0" /\
  Sprint (VFloat64 999999) = "999999" /\
  Sprint (VFloat64 1000000) = "1e+06" /\
  Sprint (VFloat64 1234567) = "1.234567e+06" /\
  Sprint (VFloat64 (-2500000)) = "-2.5e+06" /\
  Sprint (VFloat32 16777215) = "1.6777215e+07" /\
  Sprint (VFloat64 12000000000) = "1.2e+10" /\
  Sprint (VFloat64 (-42)) = "-42".
Proof. repeat split. Qed.

(** C10 on the store that holds the three-variant experiment. *)
Lemma C10_witness :
  reachable (storeWith abFlag) /\ store_valid (storeWith abFlag).
Proof.
  assert (Hreach : reachable (storeWith abFlag)).
  { apply (reachable_step (NewStore []) (OpAddFlag abFlag)).
    - apply (reachable_new (fun _ => 0) None).
    - vm_compute. reflexivity. }
  split; [exact Hreach |].
  apply (proj1 C10_registry_invariant), Hreach.
Defined.

End Samples.

(** * Further properties of the package *)

Section MoreProperties.

Context `{RT : GoRuntime}.

(** ** The condition evaluator *)

Lemma Condition_Validate_set_Negate (n : bool) (c : Condition) :
  Condition_Validate (set_Negate n c) = Condition_Validate c.
Proof. reflexivity. Qed.

(** X1. [Negate] inverts every result that comes without an error,
    missing attribute included, and leaves an error as it is. *)
Theorem X1_negate_inverts (c : Condition) (ctx : Context) :
  (forall b, evaluate c ctx = (b, None) ->
     evaluate (set_Negate (negb (Negate c)) c) ctx = (negb b, None)) /\
  (forall b e, evaluate c ctx = (b, Some e) ->
     forall n, evaluate (set_Negate n c) ctx = (false, Some e)).
Proof.
  unfold evaluate. split.
  - intros b. rewrite Condition_Validate_set_Negate.
    destruct (Condition_Validate c); [discriminate |].
    cbn [Attribute Operator_ Value_ Negate set_Negate].
    destruct (Get ctx (Attribute c)).
    + destruct (evaluateOperator _ _ _) as [r [e|]]; [discriminate |].
      intros [= <-]. unfold applyNegate. destruct (Negate c), r; reflexivity.
    + intros [= <-]. unfold applyNegate. destruct (Negate c); reflexivity.
  - intros b e H n. rewrite Condition_Validate_set_Negate.
    destruct (Condition_Validate c); [congruence |].
    cbn [Attribute Operator_ Value_ Negate set_Negate].
    destruct (Get ctx (Attribute c)); [| discriminate].
    destruct (evaluateOperator _ _ _) as [r [e'|]]; congruence.
Qed.

Lemma evaluate_present (c : Condition) (ctx : Context) (v : Value) :
  Attribute c <> "" -> IsValid (Operator_ c) = true ->
  ctx !! Attribute c = Some v ->
  evaluate c ctx
  = match evaluateOperator (Operator_ c) v (Value_ c) with
    | (_, Some err) => (false, Some err)
    | (result, None) => (applyNegate result (Negate c), None)
    end.
Proof.
  intros Hattr Hop Hv. unfold evaluate, Condition_Validate, Get.
  destruct (String.eqb_spec (Attribute c) ""); [contradiction |].
  rewrite Hop, Hv. reflexivity.
Qed.

Lemma evaluate_absent (c : Condition) (ctx : Context) :
  Attribute c <> "" -> IsValid (Operator_ c) = true ->
  ctx !! Attribute c = None ->
  evaluate c ctx = (Negate c, None).
Proof.
  intros Hattr Hop Hv. unfold evaluate, Condition_Validate, Get.
  destruct (String.eqb_spec (Attribute c) ""); [contradiction |].
  rewrite Hop, Hv. unfold applyNegate. destruct (Negate c); reflexivity.
Qed.

(** X2. On an attribute that the context holds, [!=] is a negated [==]
    and [not_in] a negated [in].  On a missing attribute they part: [!=]
    and [not_in] do not match, where the negated [==] and [in] do. *)
Theorem X2_not_equal_and_missing_attribute (c : Condition) (ctx : Context) :
  Attribute c <> "" ->
  (forall v, ctx !! Attribute c = Some v ->
     evaluate (set_Operator OperatorNotEqual c) ctx
     = evaluate (set_Negate (negb (Negate c)) (set_Operator OperatorEqual c)) ctx /\
     evaluate (set_Operator OperatorNotIn c) ctx
     = evaluate (set_Negate (negb (Negate c)) (set_Operator OperatorIn c)) ctx) /\
  (ctx !! Attribute c = None ->
     evaluate (set_Operator OperatorNotEqual c) ctx = (Negate c, None) /\
     evaluate (set_Operator OperatorNotIn c) ctx = (Negate c, None) /\
     evaluate (set_Negate (negb (Negate c)) (set_Operator OperatorEqual c)) ctx
     = (negb (Negate c), None) /\
     evaluate (set_Negate (negb (Negate c)) (set_Operator OperatorIn c)) ctx
     = (negb (Negate c), None)).
Proof.
  intros Hattr. split.
  - intros v Hv.
    split.
    + rewrite (evaluate_present (set_Operator OperatorNotEqual c) ctx v),
        (evaluate_present (set_Negate _ (set_Operator OperatorEqual c)) ctx v);
        try (assumption || reflexivity).
      cbn. unfold applyNegate.
      destruct (Negate c), (evaluateEqual v (Value_ c)); reflexivity.
    + rewrite (evaluate_present (set_Operator OperatorNotIn c) ctx v),
        (evaluate_present (set_Negate _ (set_Operator OperatorIn c)) ctx v);
        try (assumption || reflexivity).
      cbn. unfold applyNegate.
      destruct (Negate c), (evaluateIn v (Value_ c)); reflexivity.
  - intros Hv. repeat split.
    + apply (evaluate_absent (set_Operator OperatorNotEqual c)); auto.
    + apply (evaluate_absent (set_Operator OperatorNotIn c)); auto.
    + apply (evaluate_absent (set_Negate _ (set_Operator OperatorEqual c))); auto.
    + apply (evaluate_absent (set_Negate _ (set_Operator OperatorIn c))); auto.
Qed.

Lemma IsValid_false (op : Operator) :
  IsValid op = false <-> ~ In op recognizedOperators.
Proof.
  rewrite <- IsValid_recognized. destruct (IsValid op); split; congruence.
Qed.

(** The only operator that can fail is [regex], on a pattern that does not
    compile. *)
Lemma evaluateOperator_Some (op : Operator) (x y : Value) (b : bool) (e : Error) :
  evaluateOperator op x y = (b, Some e) ->
  (op = OperatorRegex /\ MatchString (Sprint y) (Sprint x) = None /\
   e = ErrRegexpSyntax (Sprint y)) \/
  (IsValid op = false /\ e = ErrInvalidOperator).
Proof.
  unfold evaluateOperator, evaluateRegex.
  destruct (IsValid op) eqn:Hvalid.
  - repeat match goal with
           | |- context [String.eqb op ?k] =>
               destruct (String.eqb_spec op k) as [-> | ?];
               [intros Hfalse; discriminate Hfalse |]
           end.
    destruct (String.eqb_spec op OperatorRegex) as [-> | Hne].
    + destruct (MatchString _ _) eqn:E; [discriminate |].
      intros [= <- <-]. left. auto.
    + apply IsValid_recognized in Hvalid.
      unfold recognizedOperators in Hvalid. cbn [In] in Hvalid.
      exfalso.
      repeat (destruct Hvalid as [Hvalid | Hvalid]; [congruence |]).
      exact Hvalid.
  - apply IsValid_false in Hvalid.
    repeat match goal with
           | |- context [String.eqb op ?k] =>
               destruct (String.eqb_spec op k) as [-> | ?];
               [exfalso; apply Hvalid; unfold recognizedOperators; cbn [In]; tauto |]
           end.
    intros [= <- <-]. right. auto.
Qed.

(** X3. The errors of [evaluate], exactly: [ErrInvalidCondition] for an
    empty attribute; [ErrInvalidOperator] for an unrecognized operator on a
    non-empty attribute; and the error of the pattern for a [regex]
    condition whose attribute is present and whose pattern does not
    compile.  The result that comes with an error is false. *)
Theorem X3_evaluate_errors (c : Condition) (ctx : Context) (b : bool) (e : Error) :
  evaluate c ctx = (b, Some e) <->
  b = false /\
  ((Attribute c = "" /\ e = ErrInvalidCondition) \/
   (Attribute c <> "" /\ ~ In (Operator_ c) recognizedOperators /\
    e = ErrInvalidOperator) \/
   (Attribute c <> "" /\ Operator_ c = OperatorRegex /\
    exists v, ctx !! Attribute c = Some v /\
              MatchString (Sprint (Value_ c)) (Sprint v) = None /\
              e = ErrRegexpSyntax (Sprint (Value_ c)))).
Proof.
  unfold evaluate, Condition_Validate, Get. split.
  - destruct (String.eqb_spec (Attribute c) "") as [Hattr | Hattr].
    { intros [= <- <-]. auto. }
    destruct (IsValid (Operator_ c)) eqn:Hop; cbn [negb].
    + destruct (ctx !! Attribute c) as [v|] eqn:Hv; [| discriminate].
      destruct (evaluateOperator _ _ _) as [r [err|]] eqn:E; [| discriminate].
      intros [= <- <-]. split; [reflexivity |].
      destruct (evaluateOperator_Some _ _ _ _ _ E) as [(Hre & Hm & ->) | [Hinv _]].
      * right. right. repeat split; try assumption. exists v. auto.
      * congruence.
    + intros [= <- <-]. split; [reflexivity |]. right. left.
      apply IsValid_false in Hop. auto.
  - intros [-> [[Hattr ->] | [(Hattr & Hop & ->) | (Hattr & Hop & v & Hv & Hm & ->)]]].
    + rewrite Hattr. reflexivity.
    + destruct (String.eqb_spec (Attribute c) ""); [contradiction |].
      apply IsValid_false in Hop. rewrite Hop. reflexivity.
    + destruct (String.eqb_spec (Attribute c) ""); [contradiction |].
      rewrite Hop, Hv. cbn. unfold evaluateRegex. rewrite Hm. reflexivity.
Qed.

Lemma String_leb_ltb (a b : string) : String.leb a b = negb (String.ltb b a).
Proof.
  unfold String.leb, String.ltb. rewrite (String.compare_antisym b a).
  destruct (String.compare a b); reflexivity.
Qed.

(** X4. The order operators mirror each other: [x > y] is [y < x] and
    [x >= y] is [y <= x], numerically or not.  When an operand is not
    numeric the comparison is that of the renderings, byte by byte, and
    [>=] is then the negation of [<], [<=] that of [>]. *)
Theorem X4_order_operators (x y : Value) :
  evaluateOperator OperatorGreaterThan x y = evaluateOperator OperatorLessThan y x /\
  evaluateOperator OperatorGreaterThanOrEqual x y
  = evaluateOperator OperatorLessThanOrEqual y x /\
  (toFloat64 x = None \/ toFloat64 y = None ->
     evaluateOperator OperatorLessThan x y
     = (String.ltb (Sprint x) (Sprint y), None) /\
     evaluateOperator OperatorGreaterThanOrEqual x y
     = (negb (String.ltb (Sprint x) (Sprint y)), None) /\
     evaluateOperator OperatorGreaterThan x y
     = (String.ltb (Sprint y) (Sprint x), None) /\
     evaluateOperator OperatorLessThanOrEqual x y
     = (negb (String.ltb (Sprint y) (Sprint x)), None)).
Proof.
  cbn. unfold evaluateGreaterThan, evaluateLessThan.
  split; [| split].
  - destruct (toFloat64 x), (toFloat64 y); reflexivity.
  - destruct (toFloat64 x), (toFloat64 y); reflexivity.
  - intros Hnon. rewrite !String_leb_ltb.
    destruct (toFloat64 x), (toFloat64 y); try (destruct Hnon; discriminate);
      repeat split; reflexivity.
Qed.

(** *** The string operators *)

Lemma append_String (c : ascii) (a b : string) :
  String c a +:+ b = String c (a +:+ b).
Proof. reflexivity. Qed.

Lemma append_empty_r (a : string) : a +:+ "" = a.
Proof.
  induction a as [|c a IH]; [reflexivity |].
  rewrite append_String, IH. reflexivity.
Qed.

Lemma prefix_iff (p s : string) :
  String.prefix p s = true <-> exists t, s = p +:+ t.
Proof.
  revert s. induction p as [|a p IH]; intros s.
  - split; [intros _; exists s; reflexivity |]. intros _. destruct s; reflexivity.
  - destruct s as [|b s]; cbn [String.prefix].
    + split; [discriminate | intros [t Ht]; discriminate Ht].
    + destruct (Ascii.ascii_dec a b) as [-> | Hne].
      * rewrite IH. split; intros [t Ht]; exists t.
        -- rewrite Ht. reflexivity.
        -- injection Ht as Ht. exact Ht.
      * split; [discriminate |]. intros [t Ht]. injection Ht as Hab _. congruence.
Qed.

Lemma Contains_iff (s x : string) :
  Contains s x = true <-> exists pre post, s = pre +:+ x +:+ post.
Proof.
  induction s as [|a s IH]; cbn [Contains]; rewrite orb_true_iff, prefix_iff.
  - split.
    + intros [[t Ht] | Hf]; [| discriminate]. exists "", t. exact Ht.
    + intros (pre & post & H). left.
      destruct pre; [exists post; exact H | discriminate H].
  - rewrite IH. split.
    + intros [[t Ht] | (pre & post & H)].
      * exists "", t. exact Ht.
      * exists (String a pre), post. rewrite H. reflexivity.
    + intros (pre & post & H). destruct pre as [|c pre].
      * left. exists post. exact H.
      * right. exists pre, post. injection H as _ H. exact H.
Qed.

Lemma length_app (a b : string) :
  String.length (a +:+ b) = (String.length a + String.length b)%nat.
Proof.
  induction a as [|c a IH]; [reflexivity |].
  rewrite append_String. cbn [String.length]. rewrite IH. reflexivity.
Qed.

Lemma substring_all (t : string) : String.substring 0 (String.length t) t = t.
Proof.
  induction t as [|c t IH]; [reflexivity |].
  cbn [String.length String.substring]. rewrite IH. reflexivity.
Qed.

Lemma substring_app_drop (pre t : string) (m : nat) :
  String.substring (String.length pre) m (pre +:+ t) = String.substring 0 m t.
Proof.
  induction pre as [|c pre IH]; [reflexivity |].
  rewrite append_String. cbn [String.length String.substring]. exact IH.
Qed.

Lemma substring_split (s : string) (n : nat) :
  (n <= String.length s)%nat ->
  s = String.substring 0 n s +:+ String.substring n (String.length s - n) s.
Proof.
  revert n. induction s as [|c s IH]; intros n Hn.
  - destruct n; [reflexivity | cbn in Hn; lia].
  - destruct n as [|n].
    + rewrite Nat.sub_0_r, substring_all. destruct s; reflexivity.
    + cbn [String.length] in *.
      replace (S (String.length s) - S n)%nat with (String.length s - n)%nat by lia.
      cbn [String.substring]. rewrite append_String.
      f_equal. apply IH. lia.
Qed.

Lemma HasSuffix_iff (s x : string) :
  HasSuffix s x = true <-> exists pre, s = pre +:+ x.
Proof.
  unfold HasSuffix. rewrite andb_true_iff, Nat.leb_le, String.eqb_eq. split.
  - intros [Hlen Hsub]. eexists.
    rewrite (substring_split s (String.length s - String.length x)) at 1 by lia.
    replace (String.length s - (String.length s - String.length x))%nat
      with (String.length x) by lia.
    rewrite Hsub. reflexivity.
  - intros [pre ->]. rewrite length_app. split; [lia |].
    replace (String.length pre + String.length x - String.length x)%nat
      with (String.length pre) by lia.
    rewrite substring_app_drop. apply substring_all.
Qed.

(** X5. [starts_with], [ends_with] and [contains] hold exactly when the
    rendering of the context value begins with, ends with, or has inside
    it the rendering of the condition value; so a value that starts or
    ends with another, or equals it, also contains it. *)
Theorem X5_string_operators (x y : Value) :
  (evaluateStartsWith x y = true <-> exists t, Sprint x = Sprint y +:+ t) /\
  (evaluateEndsWith x y = true <-> exists t, Sprint x = t +:+ Sprint y) /\
  (evaluateContains x y = true <->
   exists pre post, Sprint x = pre +:+ Sprint y +:+ post) /\
  (evaluateStartsWith x y = true -> evaluateContains x y = true) /\
  (evaluateEndsWith x y = true -> evaluateContains x y = true) /\
  (evaluateEqual x y = true ->
   evaluateStartsWith x y = true /\ evaluateEndsWith x y = true).
Proof.
  unfold evaluateStartsWith, evaluateEndsWith, evaluateContains, evaluateEqual,
    HasPrefix.
  rewrite prefix_iff, HasSuffix_iff, Contains_iff, String.eqb_eq.
  repeat split; try (intros H; exact H).
  - intros [t Ht]. exists "", t. exact Ht.
  - intros [t Ht]. exists t, "". rewrite append_empty_r. exact Ht.
  - rewrite H. exists "". rewrite append_empty_r. reflexivity.
  - rewrite H. exists "". reflexivity.
Qed.

(** X6. [in] is membership up to rendering: over a list of values it holds
    exactly when some element is [==] to the context value, over a list of
    strings when the rendering of the context value is in the list; on a
    condition value that is no list it is [==]; and on an empty list it
    never holds. *)
Theorem X6_in_is_membership (x : Value) :
  (forall l, evaluateIn x (VSlice l) = true <->
             exists item, In item l /\ evaluateEqual x item = true) /\
  (forall l, evaluateIn x (VStrings l) = true <-> In (Sprint x) l) /\
  (forall y, (forall l, y <> VSlice l) -> (forall l, y <> VStrings l) ->
             evaluateIn x y = evaluateEqual x y) /\
  evaluateIn x (VSlice []) = false /\
  evaluateIn x (VStrings []) = false.
Proof.
  unfold evaluateIn, evaluateEqual. repeat split.
  - intros H. apply existsb_exists in H as [item [Hin Heq]].
    exists item. split; [exact Hin |].
    apply String.eqb_eq in Heq. apply String.eqb_eq. congruence.
  - intros [item [Hin Heq]]. apply existsb_exists. exists item.
    split; [exact Hin |]. apply String.eqb_eq in Heq. apply String.eqb_eq. congruence.
  - intros H. apply existsb_exists in H as [item [Hin Heq]].
    apply String.eqb_eq in Heq. subst. exact Hin.
  - intros Hin. apply existsb_exists. exists (Sprint x).
    split; [exact Hin | apply String.eqb_refl].
  - intros y Hs Hl. destruct y; try reflexivity.
    + exfalso. apply (Hs l). reflexivity.
    + exfalso. apply (Hl l). reflexivity.
Qed.

(** ** The registry *)

Ltac run_store :=
  unfold bind, ret, gets, lift, panic, modify in *; cbn [fst snd] in *.

Lemma AddFlag_run_valid (flag : Flag) (s : Store) :
  Flag_Validate flag = None ->
  AddFlag flag s = (Ok None, set_flags (<[Name flag := flag]> (flags s)) s).
Proof. intros H. unfold AddFlag. rewrite H. reflexivity. Qed.

Lemma AddFlag_run_invalid (flag : Flag) (s : Store) (err : Error) :
  Flag_Validate flag = Some err -> AddFlag flag s = (Ok (Some err), s).
Proof. intros H. unfold AddFlag. rewrite H. reflexivity. Qed.

(** X7. After a successful [AddFlag], [GetFlag] on the flag's name returns
    the flag itself and every other name answers as before; the size grows
    by one when the name is new and stays when the flag replaces one; the
    rollout strategy is untouched. *)
Theorem X7_AddFlag_then_GetFlag (flag : Flag) (s : Store) :
  Flag_Validate flag = None ->
  let s' := snd (AddFlag flag s) in
  fst (GetFlag (Name flag) s') = Ok (Some flag, None) /\
  (forall other, other <> Name flag -> fst (GetFlag other s') = fst (GetFlag other s)) /\
  (flags s !! Name flag = None ->
     fst (Size s') = Ok (Z.of_nat (size (flags s)) + 1)) /\
  (is_Some (flags s !! Name flag) -> fst (Size s') = fst (Size s)) /\
  rolloutStrategy s' = rolloutStrategy s.
Proof.
  intros Hvalid. cbn zeta. rewrite (AddFlag_run_valid _ _ Hvalid). cbn [snd].
  rewrite !GetFlag_run. cbn [fst flags set_flags rolloutStrategy].
  split; [| split; [| split; [| split]]].
  - rewrite lookup_insert_eq. reflexivity.
  - intros other Hother. rewrite !GetFlag_run. cbn [fst flags set_flags].
    rewrite lookup_insert_ne by congruence. reflexivity.
  - intros Hnew. unfold Size, gets. cbn [fst flags set_flags].
    rewrite map_size_insert_None by exact Hnew. f_equal. lia.
  - intros Hold. unfold Size, gets. cbn [fst flags set_flags].
    rewrite map_size_insert_Some by exact Hold. reflexivity.
  - reflexivity.
Qed.

(** X8. After [RemoveFlag] the name is gone: [GetFlag] fails with
    [ErrFlagNotFound], [IsEnabled] is false and [GetVariant] is the empty
    name with enabled=false; every other name answers as before.  Removing
    a name that is not there changes nothing; removing one that is there
    lowers the size by one. *)
Theorem X8_RemoveFlag (name : string) (ctx : Context) (s : Store) :
  let s' := snd (RemoveFlag name s) in
  fst (GetFlag name s') = Ok (None, Some ErrFlagNotFound) /\
  fst (IsEnabled name ctx s') = Ok false /\
  fst (Store_GetVariant name ctx s') = Ok ("", false) /\
  (forall other, other <> name -> fst (GetFlag other s') = fst (GetFlag other s)) /\
  (flags s !! name = None -> flags s' = flags s) /\
  (is_Some (flags s !! name) ->
     fst (Size s') = Ok (Z.of_nat (size (flags s)) - 1)).
Proof.
  cbn zeta. unfold RemoveFlag, modify. cbn [snd].
  set (s' := set_flags (delete name (flags s)) s).
  assert (Hgone : flags s' !! name = None) by apply lookup_delete_eq.
  split; [| split; [| split; [| split; [| split]]]].
  - rewrite GetFlag_run, Hgone. reflexivity.
  - unfold IsEnabled, IsEnabledWithError. unfold bind at 1 2.
    rewrite GetFlag_run, Hgone. reflexivity.
  - unfold Store_GetVariant, GetVariantWithError. unfold bind at 1 2.
    rewrite GetFlag_run, Hgone. reflexivity.
  - intros other Hother. rewrite !GetFlag_run. cbn [fst].
    subst s'. cbn [flags set_flags].
    rewrite lookup_delete_ne by congruence. reflexivity.
  - intros Habsent. subst s'. cbn [flags set_flags].
    apply delete_id. exact Habsent.
  - intros [f Hf]. unfold Size, gets. subst s'. cbn [fst flags set_flags].
    rewrite map_size_delete, Hf.
    assert (Hsize : size (flags s) <> 0%nat).
    { apply (map_size_ne_0_lookup_2 _ name). eauto. }
    cbn. f_equal. lia.
Qed.

(** X9. [ListFlags] returns each stored name once: a name is listed exactly
    when [GetFlag] finds it, no name is listed twice, and the list is as
    long as [Size] says.  After [Clear] the list is empty, the size zero,
    and the rollout strategy the one before. *)
Theorem X9_ListFlags_and_Clear (s : Store) :
  (exists names,
     fst (ListFlags s) = Ok names /\ snd (ListFlags s) = s /\
     NoDup names /\
     (forall name, In name names <->
                   exists flag, fst (GetFlag name s) = Ok (Some flag, None)) /\
     fst (Size s) = Ok (Z.of_nat (length names))) /\
  fst (ListFlags (snd (Clear s))) = Ok [] /\
  fst (Size (snd (Clear s))) = Ok 0 /\
  rolloutStrategy (snd (Clear s)) = rolloutStrategy s.
Proof.
  split.
  - exists ((map_to_list (flags s)).*1). repeat split.
    + apply NoDup_fst_map_to_list.
    + intros Hin. apply list_elem_of_In, list_elem_of_fmap in Hin as [[n f] [-> Hin]].
      apply elem_of_map_to_list in Hin. exists f.
      rewrite GetFlag_run. cbn [fst]. rewrite Hin. reflexivity.
    + intros [f Hf]. rewrite GetFlag_run in Hf. cbn [fst] in Hf.
      destruct (flags s !! name) as [g|] eqn:Hg; [| discriminate].
      apply list_elem_of_In, list_elem_of_fmap. exists (name, g).
      split; [reflexivity | apply elem_of_map_to_list, Hg].
    + unfold Size, gets. cbn [fst]. rewrite length_fmap, length_map_to_list.
      reflexivity.
  - unfold Clear, modify, ListFlags, Size, gets. cbn [fst snd flags set_flags].
    rewrite map_to_list_empty, map_size_empty. repeat split.
Qed.

Lemma insertAll_cons (f : Flag) (fs : list Flag) (m : gmap string Flag) :
  insertAll (f :: fs) m = insertAll fs (<[Name f := f]> m).
Proof. reflexivity. Qed.

Lemma AddFlags_all_valid (fs : list Flag) (s : Store) :
  Forall (fun f => Flag_Validate f = None) fs ->
  AddFlags fs s = (Ok None, set_flags (insertAll fs (flags s)) s).
Proof.
  intros Hfs. revert s. induction Hfs as [|f fs Hf _ IH]; intros s.
  - destruct s. reflexivity.
  - cbn [AddFlags]. unfold bind at 1. rewrite (AddFlag_run_valid _ _ Hf), IH.
    reflexivity.
Qed.

(** X10. [AddFlags] inserts the flags in order, a later flag replacing an
    earlier one of the same name, and returns no error when every flag is
    valid.  It is not all-or-nothing: at the first invalid flag it returns
    that flag's error, the flags before it stay inserted and those after
    it are not looked at. *)
Theorem X10_AddFlags_stops_at_first_invalid (s : Store) :
  (forall fs,
     Forall (fun f => Flag_Validate f = None) fs ->
     AddFlags fs s = (Ok None, set_flags (insertAll fs (flags s)) s)) /\
  (forall (pre post : list Flag) (bad : Flag) (err : Error),
     Forall (fun f => Flag_Validate f = None) pre ->
     Flag_Validate bad = Some err ->
     AddFlags (pre ++ bad :: post)%list s
     = (Ok (Some err), set_flags (insertAll pre (flags s)) s)) /\
  (forall fs name,
     Forall (fun f => Name f <> name) fs ->
     insertAll fs (flags s) !! name = flags s !! name) /\
  (forall (pre post : list Flag) (f : Flag),
     Forall (fun g => Name g <> Name f) post ->
     insertAll (pre ++ f :: post)%list (flags s) !! Name f = Some f).
Proof.
  split; [| split; [| split]].
  - intros fs. apply AddFlags_all_valid.
  - intros pre post bad err Hpre Hbad. revert s.
    induction Hpre as [|f pre Hf _ IH]; intros s.
    + cbn [app AddFlags]. unfold bind at 1.
      rewrite (AddFlag_run_invalid _ _ _ Hbad). destruct s. reflexivity.
    + cbn [app AddFlags]. unfold bind at 1.
      rewrite (AddFlag_run_valid _ _ Hf), IH. reflexivity.
  - intros fs name Hfs. generalize (flags s).
    induction Hfs as [|f fs Hf _ IH]; intros m; [reflexivity |].
    rewrite insertAll_cons, IH. apply lookup_insert_ne. exact Hf.
  - intros pre post f Hpost. generalize (flags s).
    induction pre as [|g pre IH]; intros m.
    + cbn [app]. rewrite insertAll_cons.
      clear -Hpost. revert m.
      induction Hpost as [|g post Hg _ IH]; intros m.
      * apply lookup_insert_eq.
      * rewrite insertAll_cons.
        rewrite insert_insert_ne by congruence. apply IH.
    + cbn [app]. rewrite insertAll_cons. apply IH.
Qed.

(** *** Evaluation through the store *)

(** What [IsEnabledWithError] computes on a flag that the store holds. *)
Lemma IsEnabledWithError_run (name : string) (ctx : Context) (s : Store) (flag : Flag) :
  flags s !! name = Some flag ->
  IsEnabledWithError name ctx s
  = (if negb (Enabled flag) then Ok (false, None)
     else if HasVariants flag then Ok (false, None)
     else match evaluateAll (Conditions flag) ctx with
          | (_, Some err) => Ok (false, Some err)
          | (false, None) => Ok (false, None)
          | (true, None) =>
              match ShouldRollout (rolloutStrategy s) flag ctx with
              | Ok (_, Some err) => Ok (false, Some err)
              | Ok (b, None) => Ok (b, None)
              | Panic p => Panic p
              end
          end, s).
Proof.
  intros Hflag. unfold IsEnabledWithError. unfold bind at 1.
  rewrite GetFlag_run, Hflag.
  destruct (negb (Enabled flag)); [reflexivity |].
  destruct (HasVariants flag); [reflexivity |].
  destruct (evaluateAll (Conditions flag) ctx) as [[|] [e|]]; try reflexivity.
  run_store.
  destruct (ShouldRollout (rolloutStrategy s) flag ctx) as [[b [e|]] | p];
    reflexivity.
Qed.

(** What [GetVariantWithError] computes on a flag that the store holds. *)
Lemma GetVariantWithError_run (name : string) (ctx : Context) (s : Store) (flag : Flag) :
  flags s !! name = Some flag ->
  GetVariantWithError name ctx s
  = (if negb (Enabled flag) then Ok (DefaultVariant flag, false, None)
     else match evaluateAll (Conditions flag) ctx with
          | (_, Some err) => Ok ("", false, Some err)
          | (false, None) => Ok (DefaultVariant flag, false, None)
          | (true, None) =>
              if negb (HasVariants flag) then
                match ShouldRollout (rolloutStrategy s) flag ctx with
                | Ok (_, Some err) => Ok ("", false, Some err)
                | Ok (true, None) => Ok ("on", true, None)
                | Ok (false, None) => Ok ("off", false, None)
                | Panic p => Panic p
                end
              else
                match GetVariant (rolloutStrategy s) flag ctx with
                | Ok (_, Some err) => Ok ("", false, Some err)
                | Ok (variantName, None) =>
                    Ok match findVariant (Variants flag) variantName flag ctx with
                       | Some result => result
                       | None => (DefaultVariant flag, false, None)
                       end
                | Panic p => Panic p
                end
          end, s).
Proof.
  intros Hflag. unfold GetVariantWithError. unfold bind at 1.
  rewrite GetFlag_run, Hflag.
  destruct (negb (Enabled flag)); [reflexivity |].
  destruct (evaluateAll (Conditions flag) ctx) as [[|] [e|]]; try reflexivity.
  run_store. destruct (negb (HasVariants flag)).
  - destruct (ShouldRollout (rolloutStrategy s) flag ctx) as [[[|] [e|]] | p];
      reflexivity.
  - destruct (GetVariant (rolloutStrategy s) flag ctx) as [[n [e|]] | p];
      try reflexivity.
    destruct (findVariant (Variants flag) n flag ctx); reflexivity.
Qed.

Lemma IsEnabled_run (name : string) (ctx : Context) (s : Store) :
  fst (IsEnabled name ctx s)
  = match fst (IsEnabledWithError name ctx s) with
    | Ok (b, _) => Ok b
    | Panic p => Panic p
    end.
Proof.
  unfold IsEnabled, bind.
  destruct (IsEnabledWithError name ctx s) as [[[b e] | p] s']; reflexivity.
Qed.

Lemma HasVariants_false (flag : Flag) : HasVariants flag = false <-> Variants flag = [].
Proof.
  unfold HasVariants. destruct (Variants flag); cbn; split; congruence.
Qed.

(** X11. A disabled flag and a flag with variants are answered before
    anything is evaluated: whatever the context, the conditions (even one
    with a pattern that does not compile) and the strategy, [IsEnabled] on
    either is false without error, and [GetVariant] on a disabled flag is
    the default variant with enabled=false. *)
Theorem X11_disabled_and_variant_flags (name : string) (s : Store) (flag : Flag) :
  flags s !! name = Some flag ->
  (Enabled flag = false ->
     forall ctx,
       IsEnabledWithError name ctx s = (Ok (false, None), s) /\
       GetVariantWithError name ctx s = (Ok (DefaultVariant flag, false, None), s)) /\
  (Variants flag <> [] ->
     forall ctx, IsEnabledWithError name ctx s = (Ok (false, None), s)).
Proof.
  intros Hflag. split.
  - intros Hoff ctx.
    rewrite (IsEnabledWithError_run _ _ _ _ Hflag),
      (GetVariantWithError_run _ _ _ _ Hflag), Hoff.
    split; reflexivity.
  - intros Hvs ctx. rewrite (IsEnabledWithError_run _ _ _ _ Hflag).
    destruct (negb (Enabled flag)); [reflexivity |].
    destruct (HasVariants flag) eqn:E; [reflexivity |].
    apply HasVariants_false in E. contradiction.
Qed.

(** X12. On a flag without variants the two queries agree: [GetVariant]
    reports enabled exactly when [IsEnabled] is true, with the name ["on"];
    when [IsEnabled] is false the name is ["off"] or the default variant;
    an error or a panic of one is the error or the panic of the other. *)
Theorem X12_simple_flag_queries_agree (name : string) (ctx : Context) (s : Store)
    (flag : Flag) :
  flags s !! name = Some flag ->
  Variants flag = [] ->
  match fst (IsEnabledWithError name ctx s) with
  | Ok (true, None) => fst (GetVariantWithError name ctx s) = Ok ("on", true, None)
  | Ok (false, None) =>
      fst (GetVariantWithError name ctx s) = Ok ("off", false, None) \/
      fst (GetVariantWithError name ctx s) = Ok (DefaultVariant flag, false, None)
  | Ok (_, Some err) => fst (GetVariantWithError name ctx s) = Ok ("", false, Some err)
  | Panic p => fst (GetVariantWithError name ctx s) = Panic p
  end.
Proof.
  intros Hflag Hvs. apply HasVariants_false in Hvs.
  rewrite (IsEnabledWithError_run _ _ _ _ Hflag),
    (GetVariantWithError_run _ _ _ _ Hflag), Hvs. cbn [fst negb].
  destruct (negb (Enabled flag)); [right; reflexivity |].
  destruct (evaluateAll (Conditions flag) ctx) as [[|] [e|]];
    try reflexivity; [| right; reflexivity].
  destruct (ShouldRollout (rolloutStrategy s) flag ctx) as [[[|] [e|]] | p];
    try reflexivity.
  left. reflexivity.
Qed.

(** X13. [IsEnabled] is true exactly when the store holds the flag, the
    flag is enabled and has no variants, all its conditions hold, and the
    strategy rolls it out.  Under the switchback strategy the last
    condition always holds, so the rollout percentage, be it 0, plays no
    part. *)
Theorem X13_IsEnabled_true_iff (name : string) (ctx : Context) (s : Store) :
  (fst (IsEnabled name ctx s) = Ok true <->
   exists flag,
     flags s !! name = Some flag /\ Enabled flag = true /\ Variants flag = [] /\
     evaluateAll (Conditions flag) ctx = (true, None) /\
     ShouldRollout (rolloutStrategy s) flag ctx = Ok (true, None)) /\
  (forall sb flag,
     rolloutStrategy s = SwitchbackStrategy sb ->
     flags s !! name = Some flag -> Enabled flag = true -> Variants flag = [] ->
     evaluateAll (Conditions flag) ctx = (true, None) ->
     fst (IsEnabled name ctx s) = Ok true).
Proof.
  assert (Hiff : fst (IsEnabled name ctx s) = Ok true <->
    exists flag,
      flags s !! name = Some flag /\ Enabled flag = true /\ Variants flag = [] /\
      evaluateAll (Conditions flag) ctx = (true, None) /\
      ShouldRollout (rolloutStrategy s) flag ctx = Ok (true, None)).
  { rewrite IsEnabled_run. split.
    - destruct (flags s !! name) as [flag|] eqn:Hflag.
      + rewrite (IsEnabledWithError_run _ _ _ _ Hflag). cbn [fst].
        destruct (Enabled flag) eqn:Hen; cbn [negb]; [| discriminate].
        destruct (HasVariants flag) eqn:Hvs; [discriminate |].
        apply HasVariants_false in Hvs.
        destruct (evaluateAll (Conditions flag) ctx) as [[|] [e|]] eqn:Hcond;
          try discriminate.
        destruct (ShouldRollout (rolloutStrategy s) flag ctx) as [[[|] [e|]] | p]
          eqn:Hroll; try discriminate.
        intros _. exists flag. auto.
      + unfold IsEnabledWithError. unfold bind at 1.
        rewrite GetFlag_run, Hflag. discriminate.
    - intros (flag & Hflag & Hen & Hvs & Hcond & Hroll).
      apply HasVariants_false in Hvs.
      rewrite (IsEnabledWithError_run _ _ _ _ Hflag), Hen, Hvs, Hcond, Hroll.
      reflexivity. }
  split; [exact Hiff |].
  intros sb flag Hsb Hflag Hen Hvs Hcond. apply Hiff. exists flag.
  rewrite Hsb. auto.
Qed.

Lemma findVariant_Some_true (vs : list Variant) (n : string) (flag : Flag)
    (ctx : Context) (v : string) (err : option Error) :
  findVariant vs n flag ctx = Some (v, true, err) ->
  err = None /\
  exists variant, In variant vs /\ Variant_Name variant = v /\
                  evaluateAll (Variant_Conditions variant) ctx = (true, None).
Proof.
  induction vs as [|w vs IH]; cbn [findVariant]; [discriminate |].
  destruct (String.eqb_spec (Variant_Name w) n) as [Hn | Hn].
  - destruct (Variant_Conditions w) as [|c cs] eqn:Hcs.
    + cbn. intros [= <- <-]. split; [reflexivity |].
      exists w. rewrite Hcs. cbn. auto.
    + cbn [length Nat.ltb Nat.leb].
      destruct (evaluateAll (c :: cs) ctx) as [[|] [e|]] eqn:E;
        intros [= <- <-] || discriminate.
      split; [reflexivity |]. exists w. rewrite Hcs. cbn [In]. auto.
  - intros H. destruct (IH H) as [He (variant & Hin & Hname & Hc)].
    split; [exact He |]. exists variant. cbn [In]. auto.
Qed.

(** X14. [GetVariant] reports enabled only for a real assignment: when it
    returns a name with enabled=true there is no error, the flag is in the
    store, enabled, with all its conditions holding, and either the flag
    has no variants and the name is ["on"], or the name is that of one of
    the flag's variants whose own conditions all hold. *)
Theorem X14_enabled_variant_is_real (name : string) (ctx : Context) (s : Store)
    (v : string) (err : option Error) :
  fst (GetVariantWithError name ctx s) = Ok (v, true, err) ->
  err = None /\
  exists flag,
    flags s !! name = Some flag /\ Enabled flag = true /\
    evaluateAll (Conditions flag) ctx = (true, None) /\
    ((Variants flag = [] /\ v = "on") \/
     (exists variant,
        In variant (Variants flag) /\ Variant_Name variant = v /\
        evaluateAll (Variant_Conditions variant) ctx = (true, None))).
Proof.
  destruct (flags s !! name) as [flag|] eqn:Hflag.
  - rewrite (GetVariantWithError_run _ _ _ _ Hflag). cbn [fst].
    destruct (Enabled flag) eqn:Hen; cbn [negb]; [| discriminate].
    destruct (evaluateAll (Conditions flag) ctx) as [[|] [e|]] eqn:Hcond;
      try discriminate.
    destruct (HasVariants flag) eqn:Hvs; cbn [negb].
    + destruct (GetVariant (rolloutStrategy s) flag ctx) as [[n [e|]] | p];
        try discriminate.
      destruct (findVariant (Variants flag) n flag ctx) as [[[v' en'] e']|] eqn:E;
        [| discriminate].
      intros [= -> -> ->].
      destruct (findVariant_Some_true _ _ _ _ _ _ E) as [-> Hvar].
      split; [reflexivity |]. exists flag.
      repeat (split; [solve [auto] |]). right. exact Hvar.
    + apply HasVariants_false in Hvs.
      destruct (ShouldRollout (rolloutStrategy s) flag ctx) as [[[|] [e|]] | p];
        try discriminate.
      intros [= <- <-]. split; [reflexivity |]. exists flag.
      repeat (split; [solve [auto] |]). left. auto.
  - unfold GetVariantWithError. unfold bind at 1.
    rewrite GetFlag_run, Hflag. discriminate.
Qed.

(** *** Variant selection by weight *)


Lemma selectByWeight_covers (vs : list Variant) (c h : Z) :
  Forall (fun v => 0 <= Weight v) vs ->
  0 <= c -> c + totalWeight vs <= maxInt64 -> c <= h < c + totalWeight vs ->
  exists name, selectByWeight vs c h = Some name.
Proof.
  intros Hvs. revert c.
  induction Hvs as [|w vs Hw Hvs IH]; intros c Hc Hfit Hh; cbn [selectByWeight].
  - change (totalWeight []) with 0 in Hh. lia.
  - rewrite totalWeight_cons in Hfit, Hh.
    pose proof (totalWeight_nonneg vs Hvs) as Hrest.
    rewrite int_add_id by (unfold minInt64, maxInt64 in *; lia).
    destruct (Z.ltb_spec h (c + Weight w)).
    + eexists. reflexivity.
    + apply IH; lia.
Qed.

Lemma flag_valid_weights (flag : Flag) :
  flag_valid flag -> representable flag ->
  Forall (fun v => 0 <= Weight v) (Variants flag) /\
  0 + totalWeight (Variants flag) <= maxInt64.
Proof.
  intros (_ & _ & _ & Hvs & Hsum) _. split.
  - eapply Forall_impl; [exact Hvs |]. intros v [[H _] _]. exact H.
  - unfold maxInt64. lia.
Qed.


(** *** The switchback strategy through the store *)

Lemma findVariant_ext (vs : list Variant) (n : string) (flag : Flag)
    (ctx1 ctx2 : Context) :
  Forall (fun v => evaluateAll (Variant_Conditions v) ctx1
                   = evaluateAll (Variant_Conditions v) ctx2) vs ->
  findVariant vs n flag ctx1 = findVariant vs n flag ctx2.
Proof.
  induction 1 as [|v vs Hv _ IH]; cbn [findVariant]; [reflexivity |].
  rewrite Hv, IH. reflexivity.
Qed.

(** X16. Under the switchback strategy the identity plays no part: two
    contexts on which the conditions of the flag and of its variants
    evaluate alike, as any two do for a flag without conditions, get the
    same answer from [IsEnabled] and from [GetVariant] at the same
    instant. *)
Theorem X16_switchback_ignores_identity (name : string) (s : Store)
    (sb : SwitchbackRolloutStrategy) (flag : Flag) (ctx1 ctx2 : Context) :
  rolloutStrategy s = SwitchbackStrategy sb ->
  flags s !! name = Some flag ->
  evaluateAll (Conditions flag) ctx1 = evaluateAll (Conditions flag) ctx2 ->
  Forall (fun v => evaluateAll (Variant_Conditions v) ctx1
                   = evaluateAll (Variant_Conditions v) ctx2) (Variants flag) ->
  IsEnabledWithError name ctx1 s = IsEnabledWithError name ctx2 s /\
  GetVariantWithError name ctx1 s = GetVariantWithError name ctx2 s.
Proof.
  intros Hsb Hflag Hcond Hvars.
  rewrite !(IsEnabledWithError_run _ _ _ _ Hflag),
    !(GetVariantWithError_run _ _ _ _ Hflag), Hsb, Hcond.
  cbn [ShouldRollout GetVariant SwitchbackStrategy Switchback_ShouldRollout].
  split; [reflexivity |].
  destruct (negb (Enabled flag)); [reflexivity |].
  destruct (evaluateAll (Conditions flag) ctx2) as [[|] [e|]]; try reflexivity.
  destruct (negb (HasVariants flag)); [reflexivity |].
  unfold Switchback_GetVariant.
  destruct (negb (HasVariants flag)).
  - rewrite (findVariant_ext _ _ _ ctx1 ctx2 Hvars). reflexivity.
  - destruct (GetCurrentInterval sb) as [i | p]; cbn [obind]; [| reflexivity].
    destruct (Z.of_nat (length (Variants flag)) =? 0).
    + rewrite (findVariant_ext _ _ _ ctx1 ctx2 Hvars). reflexivity.
    + destruct (int_rem i _) as [r | p]; cbn [obind]; [| reflexivity].
      destruct (index_slice _ _) as [v | p]; cbn [obind]; [| reflexivity].
      rewrite (findVariant_ext _ _ _ ctx1 ctx2 Hvars). reflexivity.
Qed.

(** ** Validation *)

Lemma validateConditions_errors (cs : list Condition) (e : Error) :
  validateConditions cs = Some e -> e = ErrInvalidCondition \/ e = ErrInvalidOperator.
Proof.
  induction cs as [|c cs IH]; cbn [validateConditions]; [discriminate |].
  unfold Condition_Validate.
  destruct (String.eqb (Attribute c) ""); [intros [= <-]; auto |].
  destruct (negb (IsValid (Operator_ c))); [intros [= <-]; auto | exact IH].
Qed.

Lemma validateConditions_blank (cs : list Condition) :
  validateConditions (map blank_condition cs) = validateConditions cs.
Proof.
  induction cs as [|c cs IH]; [reflexivity |].
  cbn [map validateConditions].
  change (Condition_Validate (blank_condition c)) with (Condition_Validate c).
  rewrite IH. reflexivity.
Qed.

Lemma validateVariants_errors (vs : list Variant) (acc : Z) (e : Error) :
  validateVariants vs acc = inl e ->
  e = ErrInvalidCondition \/ e = ErrInvalidRollout \/ e = ErrInvalidOperator.
Proof.
  revert acc. induction vs as [|v vs IH]; intros acc; cbn [validateVariants].
  - discriminate.
  - destruct ((Weight v <? 0) || (Weight v >? 100)); [intros [= <-]; auto |].
    destruct (validateConditions (Variant_Conditions v)) eqn:E.
    + intros [= <-]. destruct (validateConditions_errors _ _ E); auto.
    + apply IH.
Qed.

Lemma validateVariants_blank (vs : list Variant) (acc : Z) :
  validateVariants (map blank_variant vs) acc = validateVariants vs acc.
Proof.
  revert acc. induction vs as [|v vs IH]; intros acc; [reflexivity |].
  cbn [map validateVariants blank_variant Weight Variant_Conditions].
  rewrite validateConditions_blank, IH. reflexivity.
Qed.

(** X17. The errors of [Flag.Validate]: an empty name is reported as
    [ErrInvalidCondition], before anything else; with a name, a rollout
    outside [0,100] is [ErrInvalidRollout]; and no other error than these
    two and [ErrInvalidOperator] is ever returned.  The verdict reads only
    the name, the rollout, the attributes and operators of the conditions
    and the weights: the enabled bit, the rollout key, the default variant,
    the names of the variants, the values and negate bits of the
    conditions are not checked. *)
Theorem X17_Validate_errors_and_blind_spots (f : Flag) :
  (Name f = "" -> Flag_Validate f = Some ErrInvalidCondition) /\
  (Name f <> "" -> Rollout f < 0 \/ 100 < Rollout f ->
     Flag_Validate f = Some ErrInvalidRollout) /\
  (forall e, Flag_Validate f = Some e ->
     e = ErrInvalidCondition \/ e = ErrInvalidRollout \/ e = ErrInvalidOperator) /\
  Flag_Validate (validation_view f) = Flag_Validate f.
Proof.
  unfold Flag_Validate. split; [| split; [| split]].
  - intros ->. reflexivity.
  - intros Hname Hroll.
    destruct (String.eqb_spec (Name f) ""); [contradiction |].
    destruct (Z.ltb_spec (Rollout f) 0); [reflexivity |].
    destruct (Z.gtb_spec (Rollout f) 100); [reflexivity | lia].
  - intros e.
    destruct (String.eqb (Name f) ""); [intros [= <-]; auto |].
    destruct ((Rollout f <? 0) || (Rollout f >? 100)); [intros [= <-]; auto |].
    destruct (validateConditions (Conditions f)) eqn:Ec.
    + intros [= <-]. destruct (validateConditions_errors _ _ Ec); auto.
    + destruct (validateVariants (Variants f) 0) as [err | t] eqn:Ev.
      * intros [= <-]. apply (validateVariants_errors _ _ _ Ev).
      * destruct ((0 <? length (Variants f))%nat && (t >? 100));
          [intros [= <-]; auto | discriminate].
  - cbn [validation_view Name Rollout Conditions Variants].
    rewrite validateConditions_blank, validateVariants_blank, length_map.
    reflexivity.
Qed.

(** ** Errors of evaluation on stored flags *)

Lemma evaluate_valid_error (c : Condition) (ctx : Context) (b : bool) (e : Error) :
  condition_valid c -> evaluate c ctx = (b, Some e) ->
  exists pattern, e = ErrRegexpSyntax pattern.
Proof.
  intros Hvalid. pose proof Hvalid as [_ Hop].
  apply Condition_Validate_valid in Hvalid. apply IsValid_recognized in Hop.
  unfold evaluate. rewrite Hvalid.
  destruct (Get ctx (Attribute c)); [| discriminate].
  destruct (evaluateOperator _ _ _) as [r [err|]] eqn:E; [| discriminate].
  intros [= _ <-].
  destruct (evaluateOperator_Some _ _ _ _ _ E) as [(_ & _ & ->) | [Hinv _]].
  - eexists. reflexivity.
  - congruence.
Qed.

Lemma evaluateAll_valid_error (cs : list Condition) (ctx : Context) (b : bool) (e : Error) :
  Forall condition_valid cs -> evaluateAll cs ctx = (b, Some e) ->
  exists pattern, e = ErrRegexpSyntax pattern.
Proof.
  induction 1 as [|c cs Hc _ IH]; cbn [evaluateAll]; [discriminate |].
  destruct (evaluate c ctx) as [[|] [err|]] eqn:E; try discriminate.
  - intros [= _ <-]. apply (evaluate_valid_error _ _ _ _ Hc E).
  - exact IH.
  - intros [= _ <-]. apply (evaluate_valid_error _ _ _ _ Hc E).
Qed.

Lemma findVariant_valid_error (vs : list Variant) (n : string) (flag : Flag)
    (ctx : Context) (v : string) (en : bool) (e : Error) :
  Forall variant_valid vs ->
  findVariant vs n flag ctx = Some (v, en, Some e) ->
  exists pattern, e = ErrRegexpSyntax pattern.
Proof.
  induction 1 as [|w vs [_ Hw] _ IH]; cbn [findVariant]; [discriminate |].
  destruct (String.eqb (Variant_Name w) n); [| exact IH].
  destruct (0 <? length (Variant_Conditions w))%nat; [| discriminate].
  destruct (evaluateAll (Variant_Conditions w) ctx) as [[|] [err|]] eqn:E;
    try discriminate; intros [= _ _ <-];
    apply (evaluateAll_valid_error _ _ _ _ Hw E).
Qed.

Lemma package_strategy_no_error (r : RolloutStrategy) (flag : Flag) (ctx : Context) :
  package_strategy r ->
  (exists b, ShouldRollout r flag ctx = Ok (b, None)) /\
  (forall n e, GetVariant r flag ctx <> Ok (n, Some e)).
Proof.
  intros [[d ->] | [sb ->]]; cbn [ShouldRollout GetVariant DefaultStrategy
                                   SwitchbackStrategy].
  - split.
    + unfold Default_ShouldRollout.
      destruct (Rollout flag >=? 100); [eauto |].
      destruct (Rollout flag <=? 0); [eauto |].
      destruct (Get ctx (GetRolloutKey flag)); eauto.
    + intros n e. unfold Default_GetVariant.
      destruct (negb (HasVariants flag)); [congruence |].
      destruct (Get ctx (GetRolloutKey flag)); [| congruence].
      destruct (selectByWeight _ _ _); congruence.
  - split; [eexists; reflexivity |].
    intros n e. unfold Switchback_GetVariant.
    destruct (negb (HasVariants flag)); [congruence |].
    destruct (GetCurrentInterval sb); cbn [obind]; [| congruence].
    destruct (_ =? 0); [congruence |].
    destruct (int_rem _ _); cbn [obind]; [| congruence].
    destruct (index_slice _ _); cbn [obind]; congruence.
Qed.

Lemma AddFlag_strategy (flag : Flag) (s : Store) :
  rolloutStrategy (snd (AddFlag flag s)) = rolloutStrategy s.
Proof. unfold AddFlag. destruct (Flag_Validate flag); reflexivity. Qed.

Lemma AddFlags_strategy (fs : list Flag) (s : Store) :
  rolloutStrategy (snd (AddFlags fs s)) = rolloutStrategy s.
Proof.
  revert s. induction fs as [|f fs IH]; intros s; [reflexivity |].
  cbn [AddFlags]. unfold bind at 1.
  pose proof (AddFlag_strategy f s) as Hf.
  destruct (AddFlag_outcome f s) as [err Herr].
  destruct (AddFlag f s) as [o s']; cbn [fst snd] in *. subst o.
  destruct err; [exact Hf | rewrite IH; exact Hf].
Qed.

Lemma reachable_package_strategy (s : Store) :
  reachable s -> package_strategy (rolloutStrategy s).
Proof.
  induction 1 as [timeNow opts | s o _ IH _].
  - destruct opts as [opts|]; [right | left]; eexists; reflexivity.
  - destruct o; cbn [run_op];
      [rewrite AddFlag_strategy | rewrite AddFlags_strategy | |]; exact IH.
Qed.

Lemma reachable_store_valid (s : Store) : reachable s -> store_valid s.
Proof.
  induction 1 as [timeNow opts | s o _ IH Hrep].
  - intros name f. rewrite NewStore_flags.
    + rewrite lookup_empty. discriminate.
    + destruct opts; repeat constructor.
  - apply run_op_preserves_valid; assumption.
Qed.

(** X18. In a store built from a fresh one by the registry operations, the
    error-returning queries fail in two ways only: [ErrFlagNotFound] for a
    name the store does not hold, and the error of a pattern that does not
    compile.  [ErrInvalidCondition], [ErrInvalidOperator] and
    [ErrInvalidRollout] are caught when the flag is added and never come out
    of an evaluation; and [IsEnabledWithError] never panics. *)
Theorem X18_errors_of_stored_flags (name : string) (ctx : Context) (s : Store) :
  reachable s ->
  (forall b e,
     fst (IsEnabledWithError name ctx s) = Ok (b, Some e) ->
     (e = ErrFlagNotFound /\ flags s !! name = None) \/
     exists pattern, e = ErrRegexpSyntax pattern) /\
  (forall v en e,
     fst (GetVariantWithError name ctx s) = Ok (v, en, Some e) ->
     (e = ErrFlagNotFound /\ flags s !! name = None) \/
     exists pattern, e = ErrRegexpSyntax pattern) /\
  (exists r, fst (IsEnabledWithError name ctx s) = Ok r).
Proof.
  intros Hreach.
  pose proof (reachable_package_strategy s Hreach) as Hstrat.
  pose proof (reachable_store_valid s Hreach) as Hvalid.
  destruct (flags s !! name) as [flag|] eqn:Hflag.
  - destruct (Hvalid _ _ Hflag) as (_ & _ & Hconds & Hvars & _).
    destruct (package_strategy_no_error _ flag ctx Hstrat) as [[r Hroll] Hget].
    rewrite (IsEnabledWithError_run _ _ _ _ Hflag),
      (GetVariantWithError_run _ _ _ _ Hflag), Hroll. cbn [fst].
    split; [| split].
    + intros b e. destruct (negb (Enabled flag)); [discriminate |].
      destruct (HasVariants flag); [discriminate |].
      destruct (evaluateAll (Conditions flag) ctx) as [[|] [err|]] eqn:E;
        try discriminate; intros [= _ <-]; right;
        apply (evaluateAll_valid_error _ _ _ _ Hconds E).
    + intros v en e. destruct (negb (Enabled flag)); [discriminate |].
      destruct (evaluateAll (Conditions flag) ctx) as [[|] [err|]] eqn:E;
        try discriminate;
        try (intros [= _ _ <-]; right;
             apply (evaluateAll_valid_error _ _ _ _ Hconds E)).
      destruct (negb (HasVariants flag)); [destruct r; discriminate |].
      destruct (GetVariant (rolloutStrategy s) flag ctx) as [[n [err|]] | p] eqn:G;
        try discriminate.
      * exfalso. apply (Hget n err). reflexivity.
      * destruct (findVariant (Variants flag) n flag ctx) as [[[v' en'] e']|] eqn:F;
          [| discriminate].
        intros [= -> -> ->]. right.
        apply (findVariant_valid_error _ _ _ _ _ _ _ Hvars F).
    + destruct (negb (Enabled flag)); [eauto |].
      destruct (HasVariants flag); [eauto |].
      destruct (evaluateAll (Conditions flag) ctx) as [[|] [err|]]; eauto.
  - assert (Hen : IsEnabledWithError name ctx s
                   = (Ok (false, Some ErrFlagNotFound), s)).
    { unfold IsEnabledWithError. unfold bind at 1.
      rewrite GetFlag_run, Hflag. reflexivity. }
    assert (Hget : GetVariantWithError name ctx s
                   = (Ok ("", false, Some ErrFlagNotFound), s)).
    { unfold GetVariantWithError. unfold bind at 1.
      rewrite GetFlag_run, Hflag. reflexivity. }
    rewrite Hen, Hget. cbn [fst].
    split; [| split].
    + intros b e [= _ <-]. left. auto.
    + intros v en e [= _ _ <-]. left. auto.
    + eauto.
Qed.

(** ** The switchback strategy: timing *)

Lemma Time_Sub_exact (t u : Time) :
  minInt64 <= t - u <= maxInt64 -> Time_Sub t u = t - u.
Proof.
  intros H. unfold Time_Sub.
  destruct (Z.ltb_spec (t - u) minInt64); [lia |].
  destruct (Z.gtb_spec (t - u) maxInt64); [lia | reflexivity].
Qed.

Lemma Time_Sub_mono (t1 t2 u : Time) : t1 <= t2 -> Time_Sub t1 u <= Time_Sub t2 u.
Proof.
  intros H. unfold Time_Sub.
  destruct (Z.ltb_spec (t1 - u) minInt64), (Z.ltb_spec (t2 - u) minInt64),
    (Z.gtb_spec (t1 - u) maxInt64), (Z.gtb_spec (t2 - u) maxInt64);
    unfold minInt64, maxInt64 in *; lia.
Qed.

Lemma Time_Sub_range (t u : Time) : minInt64 <= Time_Sub t u <= maxInt64.
Proof.
  unfold Time_Sub.
  destruct (Z.ltb_spec (t - u) minInt64), (Z.gtb_spec (t - u) maxInt64);
    unfold minInt64, maxInt64 in *; lia.
Qed.

Lemma quot_range (a d : Z) :
  minInt64 <= a <= maxInt64 -> 0 < d -> minInt64 <= a ÷ d <= maxInt64.
Proof.
  intros Ha Hd. destruct (Z.le_gt_cases 0 a).
  - pose proof (quot_nonneg_bounds a d ltac:(lia) Hd). unfold minInt64 in *. lia.
  - pose proof (quot_nonpos_bounds a d ltac:(lia) Hd). unfold maxInt64 in *. lia.
Qed.

(** With a positive interval the current interval is the quotient of the
    elapsed time by the interval duration. *)
Lemma GetCurrentInterval_run (s : SwitchbackRolloutStrategy) :
  0 < intervalMinutes s -> intervalMinutes s * Minute <= maxInt64 ->
  GetCurrentInterval s
  = Ok (Time_Sub (timeProvider s tt) (startTime s) ÷ (intervalMinutes s * Minute)).
Proof.
  intros Hpos Hfit.
  destruct (interval_duration_positive s Hpos Hfit) as [Hdur Hdpos].
  unfold GetCurrentInterval, int_quo. rewrite Hdur.
  destruct (Z.eqb_spec (intervalMinutes s * Minute) 0); [lia |].
  rewrite wrap64_id; [reflexivity |].
  apply quot_range; [apply Time_Sub_range | exact Hdpos].
Qed.

(** X19. With a positive interval, from the start time on and while the
    next boundary is within the range of a [Duration]:
    [GetTimeUntilNextSwitch] is positive and at most one interval, the
    elapsed time is the current interval times the duration plus what has
    passed of the interval, [GetInfo] reports these same values, and the
    interval number changes exactly when that time has run: it is still
    the current one a nanosecond before, and the next one then. *)
Theorem X19_time_until_next_switch (s : SwitchbackRolloutStrategy) :
  let now := timeProvider s tt in
  let d := intervalMinutes s * Minute in
  0 < intervalMinutes s ->
  startTime s <= now ->
  now - startTime s + d <= maxInt64 ->
  exists i t,
    GetCurrentInterval s = Ok i /\ GetTimeUntilNextSwitch s = Ok t /\
    0 <= i /\ 0 < t <= d /\
    now - startTime s = i * d + (d - t) /\
    GetInfo s = Ok {| CurrentInterval := i; CurrentDay := GetCurrentDay s;
                      TimeUntilSwitch := t; IntervalDuration := d |} /\
    GetCurrentInterval (at_time (now + t - 1) s) = Ok i /\
    GetCurrentInterval (at_time (now + t) s) = Ok (i + 1).
Proof.
  cbn zeta. intros Hpos Hnow Hfit.
  assert (Hd : 0 < intervalMinutes s * Minute) by (unfold Minute; lia).
  assert (Hdfit : intervalMinutes s * Minute <= maxInt64) by lia.
  destruct (interval_duration_positive s Hpos Hdfit) as [Hdur _].
  set (d := intervalMinutes s * Minute) in *.
  set (e := timeProvider s tt - startTime s).
  assert (Hel : Time_Sub (timeProvider s tt) (startTime s) = e).
  { apply Time_Sub_exact. subst e. unfold minInt64. lia. }
  assert (He : 0 <= e) by (subst e; lia).
  pose proof (Z.div_mod e d ltac:(lia)) as Hdiv.
  pose proof (Z.mod_pos_bound e d Hd) as Hmod.
  assert (Hquot : e ÷ d = e / d) by (apply Z.quot_div_nonneg; lia).
  assert (Hi : 0 <= e / d) by (apply Z.div_pos; lia).
  assert (Hnext : (e / d + 1) * d = e + (d - e mod d)) by lia.
  exists (e / d), (d - e mod d).
  assert (Hint : GetCurrentInterval s = Ok (e / d)).
  { rewrite GetCurrentInterval_run by assumption. fold d. rewrite Hel, Hquot.
    reflexivity. }
  assert (Htime : GetTimeUntilNextSwitch s = Ok (d - e mod d)).
  { unfold GetTimeUntilNextSwitch, int_quo. rewrite Hdur, Hel.
    destruct (Z.eqb_spec d 0); [lia |]. cbn [obind].
    rewrite Hquot, (wrap64_id (e / d)) by (unfold minInt64, maxInt64 in *; subst e; nia).
    rewrite int_add_id by (unfold minInt64, maxInt64 in *; subst e; nia).
    unfold int_mul. rewrite wrap64_id
      by (rewrite Hnext; unfold minInt64, maxInt64 in *; subst e; lia).
    rewrite Hnext. unfold Time_Add. f_equal.
    rewrite Time_Sub_exact; subst e; unfold minInt64, maxInt64 in *; lia. }
  split; [exact Hint | split; [exact Htime |]].
  split; [exact Hi | split; [lia | split; [subst e; lia | split]]].
  - unfold GetInfo. rewrite Hint, Htime. cbn [obind]. rewrite Hdur. reflexivity.
  - assert (Hshift : forall k, 0 <= e + k -> e + k + d <= maxInt64 + d ->
              e + k <= maxInt64 ->
              GetCurrentInterval (at_time (timeProvider s tt + k) s)
              = Ok ((e + k) / d)).
    { intros k Hk0 _ Hk1.
      rewrite GetCurrentInterval_run by assumption.
      cbn [at_time set_timeProvider timeProvider startTime intervalMinutes]. fold d.
      rewrite Time_Sub_exact by (subst e; unfold minInt64; lia).
      replace (timeProvider s tt + k - startTime s) with (e + k) by (subst e; lia).
      rewrite Z.quot_div_nonneg by lia. reflexivity. }
    split.
    + replace (timeProvider s tt + (d - e mod d) - 1)
        with (timeProvider s tt + (d - e mod d - 1)) by lia.
      rewrite Hshift by lia. f_equal.
      symmetry. apply (Z.div_unique _ _ _ (d - 1)); lia.
    + rewrite Hshift by lia. f_equal.
      symmetry. apply (Z.div_unique _ _ _ 0); lia.
Qed.

(** X20. The interval number never decreases as time passes, before the
    start time as after it.  Without the daily swap the variants come
    round: from the start time on, [GetVariant] gives the same variant one
    full cycle later, that is after as many intervals as the flag has
    variants. *)
Theorem X20_intervals_advance_and_cycle (s : SwitchbackRolloutStrategy)
    (flag : Flag) (ctx : Context) :
  let d := intervalMinutes s * Minute in
  let n := Z.of_nat (length (Variants flag)) in
  0 < intervalMinutes s -> d <= maxInt64 ->
  (forall now1 now2 i1 i2,
     now1 <= now2 ->
     GetCurrentInterval (at_time now1 s) = Ok i1 ->
     GetCurrentInterval (at_time now2 s) = Ok i2 ->
     i1 <= i2) /\
  (forall now,
     swapDaily s = false ->
     startTime s <= now -> now + n * d - startTime s <= maxInt64 ->
     Switchback_GetVariant (at_time (now + n * d) s) flag ctx
     = Switchback_GetVariant (at_time now s) flag ctx).
Proof.
  cbn zeta. intros Hpos Hfit.
  destruct (interval_duration_positive s Hpos Hfit) as [Hdur Hd].
  split.
  - intros now1 now2 i1 i2 Hle.
    rewrite !GetCurrentInterval_run by assumption.
    cbn [at_time set_timeProvider timeProvider startTime intervalMinutes].
    intros [= <-] [= <-].
    apply Z.quot_le_mono; [exact Hd | apply Time_Sub_mono, Hle].
  - intros now Hswap Hnow Hrange.
    unfold Switchback_GetVariant.
    destruct (negb (HasVariants flag)); [reflexivity |].
    rewrite !GetCurrentInterval_run by assumption.
    cbn [at_time set_timeProvider timeProvider startTime intervalMinutes swapDaily
         obind].
    rewrite Hswap. cbn [andb].
    set (n := Z.of_nat (length (Variants flag))) in *.
    set (d := intervalMinutes s * Minute) in *.
    destruct (Z.eqb_spec n 0) as [| Hn]; [reflexivity |].
    assert (Hnpos : 0 < n) by (subst n; lia).
    rewrite !Time_Sub_exact by (unfold minInt64; nia).
    set (e := now - startTime s).
    replace (now + n * d - startTime s) with (e + n * d) by (subst e; lia).
    assert (He : 0 <= e) by (subst e; lia).
    rewrite !Z.quot_div_nonneg by nia.
    rewrite Z.div_add by lia.
    unfold int_rem. destruct (Z.eqb_spec n 0); [contradiction |]. cbn [obind].
    assert (Hi : 0 <= e / d) by (apply Z.div_pos; lia).
    rewrite !Z.rem_mod_nonneg by lia.
    replace (e / d + n) with (e / d + 1 * n) by lia.
    rewrite Z.mod_add by lia. reflexivity.
Qed.

(** ** Contexts *)

Lemma evaluate_frame (cond : Condition) (ctx : Context) (key : string) (value : Value) :
  Attribute cond <> key ->
  evaluate cond (Context_Set ctx key value) = evaluate cond ctx.
Proof.
  intros Hne. unfold evaluate, Get, Context_Set.
  rewrite lookup_insert_ne by congruence. reflexivity.
Qed.

Lemma evaluateAll_frame (cs : list Condition) (ctx : Context) (key : string)
    (value : Value) :
  Forall (fun cond => Attribute cond <> key) cs ->
  evaluateAll cs (Context_Set ctx key value) = evaluateAll cs ctx.
Proof.
  induction 1 as [|cond cs Hc _ IH]; cbn [evaluateAll]; [reflexivity |].
  rewrite (evaluate_frame _ _ _ _ Hc), IH. reflexivity.
Qed.

Lemma package_strategy_frame (r : RolloutStrategy) (flag : Flag) (ctx : Context)
    (key : string) (value : Value) :
  package_strategy r -> key <> GetRolloutKey flag ->
  ShouldRollout r flag (Context_Set ctx key value) = ShouldRollout r flag ctx /\
  GetVariant r flag (Context_Set ctx key value) = GetVariant r flag ctx.
Proof.
  intros [[d ->] | [sb ->]] Hkey;
    cbn [ShouldRollout GetVariant DefaultStrategy SwitchbackStrategy].
  - unfold Default_ShouldRollout, Default_GetVariant, Get, Context_Set.
    rewrite lookup_insert_ne by exact Hkey. split; reflexivity.
  - split; reflexivity.
Qed.

(** X22. An attribute that a flag does not mention does not affect it:
    setting in the context a key that is neither the flag's rollout key
    nor the attribute of any of its conditions, at flag or variant level,
    leaves the answers of [IsEnabled] and of [GetVariant] as they were,
    under either strategy of the package. *)
Theorem X22_unmentioned_attribute_is_irrelevant (name : string) (ctx : Context)
    (s : Store) (flag : Flag) (key : string) (value : Value) :
  flags s !! name = Some flag ->
  package_strategy (rolloutStrategy s) ->
  key <> GetRolloutKey flag ->
  Forall (fun cond => Attribute cond <> key) (Conditions flag) ->
  Forall (fun v => Forall (fun cond => Attribute cond <> key) (Variant_Conditions v))
    (Variants flag) ->
  IsEnabledWithError name (Context_Set ctx key value) s
  = IsEnabledWithError name ctx s /\
  GetVariantWithError name (Context_Set ctx key value) s
  = GetVariantWithError name ctx s.
Proof.
  intros Hflag Hstrat Hkey Hconds Hvars.
  destruct (package_strategy_frame _ flag ctx key value Hstrat Hkey) as [Hroll Hget].
  rewrite !(IsEnabledWithError_run _ _ _ _ Hflag),
    !(GetVariantWithError_run _ _ _ _ Hflag),
    (evaluateAll_frame _ _ _ _ Hconds), Hroll, Hget.
  split; [reflexivity |].
  destruct (negb (Enabled flag)); [reflexivity |].
  destruct (evaluateAll (Conditions flag) ctx) as [[|] [e|]]; try reflexivity.
  destruct (negb (HasVariants flag)); [reflexivity |].
  destruct (GetVariant (rolloutStrategy s) flag ctx) as [[n [e|]] | p];
    try reflexivity.
  rewrite (findVariant_ext _ n flag (Context_Set ctx key value) ctx); [reflexivity |].
  eapply Forall_impl; [exact Hvars |].
  intros v Hv. apply evaluateAll_frame, Hv.
Qed.

(** ** The loaders *)

Lemma validateLoaded_None (ptrs : list (option Flag)) :
  validateLoaded ptrs = Ok None <->
  exists fs, ptrs = map Some fs /\ Forall (fun f => Flag_Validate f = None) fs.
Proof.
  induction ptrs as [|[f|] ptrs IH]; cbn [validateLoaded].
  - split; [intros _; exists []; split; [reflexivity | constructor] | reflexivity].
  - destruct (Flag_Validate f) eqn:Hf.
    + split; [discriminate |]. intros ([|g fs] & Heq & Hall); [discriminate |].
      injection Heq as -> _. apply Forall_cons_iff in Hall as [Hg _]. congruence.
    + rewrite IH. split.
      * intros (fs & -> & Hall). exists (f :: fs). split; [reflexivity |].
        constructor; assumption.
      * intros ([|g fs] & Heq & Hall); [discriminate |].
        injection Heq as -> ->. apply Forall_cons_iff in Hall as [_ Hall].
        exists fs. split; [reflexivity | exact Hall].
  - split; [discriminate |]. intros ([|g fs] & Heq & _); discriminate.
Qed.

Lemma Load_ok_iff (d : Decoded) (ptrs : list (option Flag)) :
  Load d = Ok (ptrs, None) <->
  exists fs, d = DecodedFlags ptrs /\ ptrs = map Some fs /\
             Forall (fun f => Flag_Validate f = None) fs.
Proof.
  destruct d as [msg | msg | ps]; cbn [Load].
  - split; [discriminate | intros (fs & Hd & _); discriminate].
  - split; [discriminate | intros (fs & Hd & _); discriminate].
  - split.
    + destruct (validateLoaded ps) as [[e|] | p] eqn:E; cbn [obind];
        try discriminate.
      intros [= <-]. apply validateLoaded_None in E as (fs & -> & Hall).
      exists fs. auto.
    + intros (fs & [= <-] & -> & Hall).
      rewrite (proj2 (validateLoaded_None (map Some fs))) by eauto.
      reflexivity.
Qed.

(** X23. [Load] is all-or-nothing: it returns flags, without error, exactly
    when the source was opened and decoded, no decoded pointer is nil and
    every decoded flag passes [Flag.Validate]; the flags are then the
    decoded ones, unchanged.  With an error it returns no flag at all, and
    the error of the first invalid flag is the one reported. *)
Theorem X23_Load_validates_everything (d : Decoded) :
  (forall ptrs,
     Load d = Ok (ptrs, None) <->
     exists fs, d = DecodedFlags ptrs /\ ptrs = map Some fs /\
                Forall (fun f => Flag_Validate f = None) fs) /\
  (forall ptrs err, Load d = Ok (ptrs, Some err) -> ptrs = []) /\
  (forall (pre post : list (option Flag)) (pre' : list Flag) (bad : Flag) (err : Error),
     d = DecodedFlags (pre ++ Some bad :: post)%list ->
     pre = map Some pre' ->
     Forall (fun f => Flag_Validate f = None) pre' ->
     Flag_Validate bad = Some err ->
     Load d = Ok ([], Some (ErrToggo err))).
Proof.
  split; [| split].
  - intros ptrs. apply Load_ok_iff.
  - intros ptrs err. destruct d as [msg | msg | ps]; cbn [Load];
      try (intros [= <- _]; reflexivity).
    destruct (validateLoaded ps) as [[e|] | p]; cbn [obind]; try discriminate.
    intros [= <- _]. reflexivity.
  - intros pre post pre' bad err -> -> Hpre Hbad. cbn [Load].
    assert (H : validateLoaded (map Some pre' ++ Some bad :: post) = Ok (Some err)).
    { induction Hpre as [|f fs Hf _ IH]; cbn [map app validateLoaded].
      - rewrite Hbad. reflexivity.
      - rewrite Hf. exact IH. }
    rewrite H. reflexivity.
Qed.

Lemma AddFlags_ptr_Some (fs : list Flag) (s : Store) :
  AddFlags_ptr (map Some fs) s = AddFlags fs s.
Proof.
  revert s. induction fs as [|f fs IH]; intros s; [reflexivity |].
  cbn [map AddFlags_ptr AddFlags AddFlag_ptr]. unfold bind.
  destruct (AddFlag f s) as [[[e|] | p] s']; try reflexivity. apply IH.
Qed.

(** X24. [LoadIntoStore] never leaves the store half-updated: either the
    whole document is valid, every flag of it is inserted in order and no
    error is returned; or the store is left exactly as it was and the
    call returns an error or panics on a nil flag.  The second stage,
    [AddFlags], cannot fail after a successful [Load]. *)
Theorem X24_LoadIntoStore_all_or_nothing (d : Decoded) (s : Store) :
  (exists fs,
     d = DecodedFlags (map Some fs) /\
     Forall (fun f => Flag_Validate f = None) fs /\
     LoadIntoStore d s = (Ok None, set_flags (insertAll fs (flags s)) s)) \/
  (snd (LoadIntoStore d s) = s /\ fst (LoadIntoStore d s) <> Ok None).
Proof.
  unfold LoadIntoStore, bind, lift.
  destruct (Load d) as [[ptrs [err|]] | p] eqn:E.
  - right. split; [reflexivity | discriminate].
  - left. destruct (proj1 (Load_ok_iff d ptrs) E) as (fs & -> & -> & Hall).
    exists fs. split; [reflexivity | split; [exact Hall |]].
    rewrite AddFlags_ptr_Some, (AddFlags_all_valid _ _ Hall). reflexivity.
  - right. split; [reflexivity | discriminate].
Qed.

(** ** The deterministic-hash strategy *)

Lemma Default_ShouldRollout_true (r : DefaultRolloutStrategy) (flag : Flag)
    (ctx : Context) :
  Default_ShouldRollout r flag ctx = (true, None) <->
  100 <= Rollout flag \/
  (0 < Rollout flag < 100 /\
   exists v, ctx !! GetRolloutKey flag = Some v /\
             hash.Hash (hasher r) (Name flag +:+ ":" +:+ Sprint v) < Rollout flag).
Proof.
  unfold Default_ShouldRollout, Get.
  destruct (Z.geb_spec (Rollout flag) 100).
  { split; [intros _; left; lia | reflexivity]. }
  destruct (Z.leb_spec (Rollout flag) 0).
  { split; [discriminate | intros [? | [? _]]; lia]. }
  destruct (ctx !! GetRolloutKey flag) as [v|].
  - destruct (Z.ltb_spec (hash.Hash (hasher r) (Name flag +:+ ":" +:+ Sprint v))
                (Rollout flag)).
    + split; [| reflexivity]. intros _. right. split; [lia |]. exists v. auto.
    + split; [discriminate |]. intros [? | [_ (w & [= <-] & Hw)]]; lia.
  - split; [discriminate |]. intros [? | [_ (w & Hw & _)]]; [lia | discriminate].
Qed.

Lemma Default_ShouldRollout_total (r : DefaultRolloutStrategy) (flag : Flag)
    (ctx : Context) :
  exists b, Default_ShouldRollout r flag ctx = (b, None).
Proof.
  unfold Default_ShouldRollout.
  destruct (Rollout flag >=? 100); [eauto |].
  destruct (Rollout flag <=? 0); [eauto |].
  destruct (Get ctx (GetRolloutKey flag)); eauto.
Qed.

(** X25. Raising the rollout percentage never turns a flag off for an
    identity that had it on, and lowering it never turns it on, whatever
    the hasher: the bucket of an identity does not depend on the
    percentage. *)
Theorem X25_rollout_is_monotone (r : DefaultRolloutStrategy) (flag : Flag)
    (ctx : Context) (rollout' : Z) :
  Rollout flag <= rollout' ->
  (Default_ShouldRollout r flag ctx = (true, None) ->
   Default_ShouldRollout r (set_Rollout rollout' flag) ctx = (true, None)) /\
  (Default_ShouldRollout r (set_Rollout rollout' flag) ctx = (false, None) ->
   Default_ShouldRollout r flag ctx = (false, None)).
Proof.
  intros Hle.
  assert (Hup : Default_ShouldRollout r flag ctx = (true, None) ->
                Default_ShouldRollout r (set_Rollout rollout' flag) ctx = (true, None)).
  { rewrite !Default_ShouldRollout_true.
    change (GetRolloutKey (set_Rollout rollout' flag)) with (GetRolloutKey flag).
    cbn [set_Rollout Rollout Name].
    intros [Hfull | [Hmid (v & Hv & Hlt)]]; [left; lia |].
    destruct (Z.le_gt_cases 100 rollout'); [left; assumption |].
    right. split; [lia |]. exists v. split; [exact Hv | lia]. }
  split; [exact Hup |].
  intros Hoff. destruct (Default_ShouldRollout_total r flag ctx) as [[|] Hb];
    [| exact Hb].
  rewrite (Hup Hb) in Hoff. discriminate.
Qed.

(** X26. An identity is the rendering of the rollout-key value: two
    contexts whose values under the flag's rollout key print alike, such
    as the number 123 and the string ["123"], get the same rollout
    decision and the same variant, whatever else the contexts hold. *)
Theorem X26_identity_is_the_rendering (r : DefaultRolloutStrategy) (flag : Flag)
    (ctx1 ctx2 : Context) (v1 v2 : Value) :
  ctx1 !! GetRolloutKey flag = Some v1 ->
  ctx2 !! GetRolloutKey flag = Some v2 ->
  Sprint v1 = Sprint v2 ->
  Default_ShouldRollout r flag ctx1 = Default_ShouldRollout r flag ctx2 /\
  Default_GetVariant r flag ctx1 = Default_GetVariant r flag ctx2.
Proof.
  intros H1 H2 Hs. unfold Default_ShouldRollout, Default_GetVariant, Get.
  rewrite H1, H2, Hs. split; reflexivity.
Qed.

Lemma selectByWeight_app (vs more : list Variant) (c h : Z) (name : string) :
  selectByWeight vs c h = Some name ->
  selectByWeight (vs ++ more) c h = Some name.
Proof.
  revert c. induction vs as [|v vs IH]; intros c; cbn [app selectByWeight].
  - discriminate.
  - destruct (h <? int_add c (Weight v)); [intros H; exact H | apply IH].
Qed.

(** X27. Variants appended at the end of a valid flag take only from the
    unallocated buckets: an identity whose bucket is below the total
    weight of the original variants keeps the variant it had. *)
Theorem X27_appended_variants_keep_assignments (flag : Flag) (more : list Variant)
    (ctx : Context) (keyValue : Value) :
  flag_valid flag -> representable flag ->
  ctx !! GetRolloutKey flag = Some keyValue ->
  hash.FNVHasher_Hash (Name flag +:+ ":variant:" +:+ Sprint keyValue)
    < totalWeight (Variants flag) ->
  Default_GetVariant (NewDefaultRolloutStrategy None)
    (set_Variants (Variants flag ++ more) flag) ctx
  = Default_GetVariant (NewDefaultRolloutStrategy None) flag ctx.
Proof.
  intros Hvalid Hrep Hkey Hlt.
  destruct (flag_valid_weights flag Hvalid Hrep) as [Hpos Hfit].
  pose proof (FNVHasher_Hash_range (Name flag +:+ ":variant:" +:+ Sprint keyValue))
    as Hbucket.
  destruct (selectByWeight_covers (Variants flag) 0 _ Hpos ltac:(lia) Hfit
              ltac:(split; [apply Hbucket | lia])) as [name Hsel].
  unfold Default_GetVariant, Get, HasVariants.
  change (GetRolloutKey (set_Variants (Variants flag ++ more) flag))
    with (GetRolloutKey flag).
  cbn [set_Variants Variants Name DefaultVariant NewDefaultRolloutStrategy hasher
       hash.NewFNV hash.Hash].
  rewrite Hkey, (selectByWeight_app _ more _ _ _ Hsel), Hsel.
  destruct (Variants flag) as [|v vs]; [discriminate Hsel | reflexivity].
Qed.

(** ** Conjunctions of conditions *)

(** X28. [evaluateAll] on two lists in a row is [evaluateAll] on the
    first, and on the second only when the first is true.  Hence the
    order of the conditions cannot change whether the conjunction is true:
    it can only change which false or error result is reported. *)
Theorem X28_evaluateAll_append (cs1 cs2 : list Condition) (ctx : Context) :
  evaluateAll (cs1 ++ cs2) ctx
  = match evaluateAll cs1 ctx with
    | (true, None) => evaluateAll cs2 ctx
    | other => other
    end /\
  (evaluateAll (cs1 ++ cs2) ctx = (true, None) <->
   evaluateAll (cs2 ++ cs1) ctx = (true, None)).
Proof.
  split.
  - induction cs1 as [|c cs1 IH]; cbn [app evaluateAll].
    + reflexivity.
    + destruct (evaluate c ctx) as [[|] [e|]]; try reflexivity. exact IH.
  - rewrite !evaluateAll_true, !Forall_app. tauto.
Qed.

(** ** Building a switchback strategy *)

Lemma fold_left_snoc {A B : Type} (f : A -> B -> A) (l : list B) (x : B) (a : A) :
  fold_left f (l ++ [x]) a = f (fold_left f l a) x.
Proof. revert a. induction l as [|y l IH]; intros a; [reflexivity | apply IH]. Qed.

(** X29. By default a switchback strategy has 30-minute intervals, no
    daily swap, and starts at the last multiple of 24 hours not after the
    clock reading: at that reading the day is 0 and the interval lies in
    [0,48).  An option given last overrides the default and any earlier
    option of its kind. *)
Theorem X29_switchback_defaults (timeNow : unit -> Time) :
  let s := NewSwitchbackRolloutStrategy timeNow [] in
  (intervalMinutes s = 30 /\ swapDaily s = false /\
   startTime s <= timeNow tt < startTime s + 24 * Hour /\
   startTime s mod (24 * Hour) = 0 /\
   GetCurrentDay s = 0 /\
   exists i, GetCurrentInterval s = Ok i /\ 0 <= i < 48) /\
  (forall opts m,
     intervalMinutes (NewSwitchbackRolloutStrategy timeNow
                        (opts ++ [WithIntervalMinutes m])) = m) /\
  (forall opts t,
     startTime (NewSwitchbackRolloutStrategy timeNow (opts ++ [WithStartTime t])) = t) /\
  (forall opts b,
     swapDaily (NewSwitchbackRolloutStrategy timeNow (opts ++ [WithDailySwap b])) = b).
Proof.
  cbn zeta. split.
  - unfold NewSwitchbackRolloutStrategy. cbn [fold_left intervalMinutes swapDaily startTime].
    unfold Time_Truncate.
    change (24 * Hour <=? 0) with false. cbv iota.
    set (D := 24 * Hour). set (t := timeNow tt) in *.
    assert (HD : 0 < D) by reflexivity.
    pose proof (Z.mod_pos_bound t D HD) as Hmod.
    assert (Hel : Time_Sub t (t - t mod D) = t mod D).
    { rewrite Time_Sub_exact; [lia |].
      unfold minInt64, maxInt64. subst D. unfold Hour, Minute in *. lia. }
    split; [reflexivity |]. split; [reflexivity |]. split; [lia |].
    split.
    { rewrite Zminus_mod_idemp_r, Z.sub_diag. reflexivity. }
    split.
    + unfold GetCurrentDay. cbn [timeProvider startTime]. fold t D. rewrite Hel.
      rewrite Z.quot_small by lia. reflexivity.
    + rewrite GetCurrentInterval_run by (cbn; unfold maxInt64, Minute; lia).
      cbn [timeProvider startTime intervalMinutes]. fold t D. rewrite Hel.
      eexists. split; [reflexivity |].
      rewrite Z.quot_div_nonneg by (unfold Minute; lia).
      split; [apply Z.div_pos; unfold Minute; lia |].
      apply Z.div_lt_upper_bound; [unfold Minute; lia |].
      subst D. unfold Hour, Minute in *. lia.
  - unfold NewSwitchbackRolloutStrategy.
    repeat split; intros opts x; rewrite fold_left_snoc; reflexivity.
Qed.

End MoreProperties.

(** * The further properties on the sample data *)

Section MoreSamples.

Import Fragment Examples.

Lemma X2_witness :
  Attribute (countryIs "US" false) <> "" /\
  evaluate (set_Operator OperatorNotEqual (countryIs "US" false)) user1 = (false, None).
Proof.
  assert (Hattr : Attribute (countryIs "US" false) <> "") by discriminate.
  split; [exact Hattr |].
  destruct (X2_not_equal_and_missing_attribute (countryIs "US" false) user1 Hattr)
    as [_ H].
  apply H. reflexivity.
Defined.

Lemma X7_witness :
  Flag_Validate rolloutFlag = None /\
  fst (GetFlag (Name rolloutFlag) (snd (AddFlag rolloutFlag (storeWith abFlag))))
  = Ok (Some rolloutFlag, None).
Proof.
  split; [reflexivity |].
  apply (X7_AddFlag_then_GetFlag rolloutFlag (storeWith abFlag)). reflexivity.
Defined.

Lemma X11_witness :
  flags (storeWith abFlag) !! "ab_test" = Some abFlag /\
  IsEnabledWithError "ab_test" user1 (storeWith abFlag)
  = (Ok (false, None), storeWith abFlag).
Proof.
  split; [reflexivity |].
  destruct (X11_disabled_and_variant_flags "ab_test" (storeWith abFlag) abFlag eq_refl)
    as [_ H].
  apply H. discriminate.
Defined.

Lemma X12_witness :
  flags (storeWith rolloutFlag) !! "rollout_flag" = Some rolloutFlag /\
  Variants rolloutFlag = [] /\
  fst (GetVariantWithError "rollout_flag" user1 (storeWith rolloutFlag))
  = Ok ("on", true, None).
Proof.
  split; [reflexivity |]. split; [reflexivity |].
  exact (X12_simple_flag_queries_agree "rollout_flag" user1 (storeWith rolloutFlag)
           rolloutFlag eq_refl eq_refl).
Defined.

Lemma X14_witness :
  fst (GetVariantWithError "ab_test" user1 (storeWith abFlag))
  = Ok ("control", true, None) /\
  exists flag, flags (storeWith abFlag) !! "ab_test" = Some flag /\ Enabled flag = true.
Proof.
  assert (H : fst (GetVariantWithError "ab_test" user1 (storeWith abFlag))
              = Ok ("control", true, None)) by reflexivity.
  split; [exact H |].
  destruct (X14_enabled_variant_is_real "ab_test" user1 (storeWith abFlag)
              "control" None H) as [_ (flag & Hflag & Hen & _)].
  exists flag. split; assumption.
Defined.


Lemma X16_witness :
  GetVariantWithError "rebate" user1 (switchbackStore (T0 + 45 * Minute))
  = GetVariantWithError "rebate" withEmail (switchbackStore (T0 + 45 * Minute)).
Proof.
  destruct (X16_switchback_ignores_identity "rebate"
              (switchbackStore (T0 + 45 * Minute))
              (at_time (T0 + 45 * Minute)
                 (NewSwitchbackRolloutStrategy (fun _ => T0 + 45 * Minute)
                    [WithIntervalMinutes 30; WithStartTime T0]))
              twoArms user1 withEmail) as [_ H].
  - reflexivity.
  - reflexivity.
  - reflexivity.
  - repeat constructor.
  - exact H.
Defined.

Lemma X18_witness :
  reachable (storeWith betaFlag) /\
  fst (IsEnabledWithError "beta" withEmail (storeWith betaFlag))
  = Ok (false, Some (ErrRegexpSyntax "(")) /\
  ((ErrRegexpSyntax "(" = ErrFlagNotFound /\ flags (storeWith betaFlag) !! "beta" = None) \/
   exists pattern, ErrRegexpSyntax "(" = ErrRegexpSyntax pattern).
Proof.
  assert (Hreach : reachable (storeWith betaFlag)).
  { apply (reachable_step (NewStore []) (OpAddFlag betaFlag)).
    - apply (reachable_new (fun _ => 0) None).
    - vm_compute. reflexivity. }
  split; [exact Hreach |]. split; [reflexivity |].
  destruct (X18_errors_of_stored_flags "beta" withEmail (storeWith betaFlag) Hreach)
    as [H _].
  apply (H false). reflexivity.
Defined.

Lemma X19_witness :
  exists i t,
    GetCurrentInterval (switchbackAt (T0 + 45 * Minute)) = Ok i /\
    GetTimeUntilNextSwitch (switchbackAt (T0 + 45 * Minute)) = Ok t /\
    0 < t <= 30 * Minute.
Proof.
  destruct (X19_time_until_next_switch (switchbackAt (T0 + 45 * Minute)))
    as (i & t & Hi & Ht & _ & Hrange & _).
  - reflexivity.
  - vm_compute. discriminate.
  - vm_compute. discriminate.
  - exists i, t. repeat split; try assumption; apply Hrange.
Defined.

Lemma X20_witness :
  Switchback_GetVariant
    (at_time (T0 + 45 * Minute + 2 * (30 * Minute)) (switchbackAt T0)) twoArms user1
  = Switchback_GetVariant (at_time (T0 + 45 * Minute) (switchbackAt T0)) twoArms user1.
Proof.
  destruct (X20_intervals_advance_and_cycle (switchbackAt T0) twoArms user1)
    as [_ H].
  - reflexivity.
  - vm_compute. discriminate.
  - apply (H (T0 + 45 * Minute)).
    + reflexivity.
    + vm_compute. discriminate.
    + vm_compute. discriminate.
Defined.

Lemma X22_witness :
  IsEnabledWithError "ab_test" (Context_Set user1 "plan" (VString "premium"))
    (storeWith abFlag)
  = IsEnabledWithError "ab_test" user1 (storeWith abFlag).
Proof.
  destruct (X22_unmentioned_attribute_is_irrelevant "ab_test" user1
              (storeWith abFlag) abFlag "plan" (VString "premium")) as [H _].
  - reflexivity.
  - left. eexists. reflexivity.
  - discriminate.
  - constructor.
  - repeat constructor.
  - exact H.
Defined.

Lemma X25_witness :
  Rollout rolloutFlag <= 80 /\
  Default_ShouldRollout (NewDefaultRolloutStrategy None) (set_Rollout 80 rolloutFlag) user1
  = (true, None).
Proof.
  assert (Hle : Rollout rolloutFlag <= 80) by (vm_compute; discriminate).
  split; [exact Hle |].
  destruct (X25_rollout_is_monotone (NewDefaultRolloutStrategy None) rolloutFlag
              user1 80 Hle) as [H _].
  apply H. reflexivity.
Defined.

Lemma X26_witness :
  Default_ShouldRollout (NewDefaultRolloutStrategy None) rolloutFlag
    {[ "user_id" := VInt 123 ]}
  = Default_ShouldRollout (NewDefaultRolloutStrategy None) rolloutFlag
      {[ "user_id" := VString "123" ]}.
Proof.
  destruct (X26_identity_is_the_rendering (NewDefaultRolloutStrategy None) rolloutFlag
              {[ "user_id" := VInt 123 ]} {[ "user_id" := VString "123" ]}
              (VInt 123) (VString "123")) as [H _].
  - reflexivity.
  - reflexivity.
  - reflexivity.
  - exact H.
Defined.

Lemma X27_witness :
  Default_GetVariant (NewDefaultRolloutStrategy None)
    (set_Variants (Variants (pricingFlag "control") ++ [plainVariant "late" 20])
       (pricingFlag "control"))
    {[ "user_id" := VString "bob" ]}
  = Default_GetVariant (NewDefaultRolloutStrategy None) (pricingFlag "control")
      {[ "user_id" := VString "bob" ]}.
Proof.
  assert (Hrep : representable (pricingFlag "control")) by (vm_compute; reflexivity).
  apply (X27_appended_variants_keep_assignments (pricingFlag "control")
           [plainVariant "late" 20] {[ "user_id" := VString "bob" ]} (VString "bob")).
  - apply (Flag_Validate_valid _ Hrep). reflexivity.
  - exact Hrep.
  - reflexivity.
  - vm_compute. reflexivity.
Defined.

End MoreSamples.
